(** * The image-stream facade of the registry (pkg/imagestream/imagestream.go)

    A shallow embedding of the facade that reconciles registry requests with
    the image-stream records of the cluster metadata service, and the
    properties of it that the specification states.

    Go values are modelled as follows.
    - An [error] interface value is [option error]; [None] is Go's [nil].
    - Objects reached through pointers ([*imageStream], [*imageapiv1.Image])
      live in heaps, lists indexed by location; dereferencing a location that
      holds nothing is Go's nil-pointer panic.
    - Every method is a computation in the monad [M]: it threads the state of
      the metadata service, the two heaps and the log of the requests issued,
      and it ends by returning a value or by panicking. *)

From Stdlib Require Import ZArith String Ascii.
From stdpp Require Import base option list strings gmap.

Local Open Scope string_scope.
Local Open Scope Z_scope.

(** ** Strings *)

(** [strings.ToLower], on strings as sequences of bytes: the ASCII capitals
    are lowered, every other byte is kept.  The facade only compares the
    result with the constant "namespaces", and no character outside ASCII is
    lowered by Go to one of the letters of that word, so the comparison comes
    out as in Go. *)
Definition lower_ascii (c : ascii) : ascii :=
  let n := N_of_ascii c in
  if ((65 <=? n) && (n <=? 90))%N then ascii_of_N (n + 32) else c.

Fixpoint ToLower (s : string) : string :=
  match s with
  | EmptyString => EmptyString
  | String c s' => String (lower_ascii c) (ToLower s')
  end.

(** [strings.HasPrefix s p]. *)
Definition HasPrefix (s p : string) : bool := String.prefix p s.

(** ** k8s.io/apimachinery: status errors *)

Module metav1.
Record StatusDetails := mkStatusDetails {
  Name : string;
  Kind : string
}.

Record Status := mkStatus {
  Message : string;
  Reason : string;
  Details : option StatusDetails;   (* *StatusDetails, nil when absent *)
  Code : Z                          (* int32 *)
}.
End metav1.

(** [net/http.StatusNotFound] *)
Definition http_StatusNotFound : Z := 404.

(** Go [error] values.  [StatusError] is [*kerrors.StatusError]; [PlainError]
    stands for every other dynamic type; [RegistryError] is the error built by
    [rerrors.NewError] when it is passed on as a plain [error]. *)
#[warnings="-register-all"]
Inductive error : Type :=
| StatusError (ErrStatus : metav1.Status)
| PlainError (text : string)
| RegistryError (code message : string) (err : option error).

(** ** pkg/errors: the facade's error values *)

Module rerrors.
Record Error := NewError {
  Code : string;
  Message : string;
  Err : option error
}.

Definition as_error (e : Error) : error :=
  RegistryError (Code e) (Message e) (Err e).
End rerrors.

Definition ErrImageStreamCode : string := "ImageStream:".
Definition ErrImageStreamUnknownErrorCode : string := ErrImageStreamCode +:+ "Unknown".
Definition ErrImageStreamNotFoundCode : string := ErrImageStreamCode +:+ "NotFound".
Definition ErrImageStreamImageNotFoundCode : string := ErrImageStreamCode +:+ "ImageNotFound".
Definition ErrImageStreamForbiddenCode : string := ErrImageStreamCode +:+ "Forbidden".

(** ** github.com/openshift/api/image/v1: the records the facade reads *)

Module imageapiv1.
Record TagEvent := mkTagEvent {
  Created : Z;                       (* metav1.Time *)
  TagEvent_DockerImageReference : string;
  TagEvent_Image : string
}.

Record NamedTagEventList := mkNamedTagEventList {
  Tag : string;
  Items : list TagEvent
}.

Record TagImportPolicy := mkTagImportPolicy {
  Insecure : bool;
  Scheduled : bool
}.

Record TagReference := mkTagReference {
  TagReference_Name : string;
  ImportPolicy : TagImportPolicy
}.

Record ImageStreamSpec := mkImageStreamSpec {
  Spec_Tags : list TagReference
}.

Record ImageStreamStatus := mkImageStreamStatus {
  DockerImageRepository : string;
  PublicDockerImageRepository : string;
  Status_Tags : list NamedTagEventList
}.

Record ImageStream := mkImageStream {
  Namespace : string;
  Name : string;
  Annotations : gmap string string;
  Spec : ImageStreamSpec;
  Status : ImageStreamStatus
}.

(** The zero value [imageapiv1.ImageStream{}]. *)
Definition ImageStream_zero : ImageStream :=
  {| Namespace := ""; Name := ""; Annotations := ∅;
     Spec := {| Spec_Tags := [] |};
     Status := {| DockerImageRepository := "";
                  PublicDockerImageRepository := "";
                  Status_Tags := [] |} |}.

Definition ImageStream_set_Name (s : ImageStream) (n : string) : ImageStream :=
  {| Namespace := Namespace s; Name := n; Annotations := Annotations s;
     Spec := Spec s; Status := Status s |}.

Record Image := mkImage {
  Image_Name : string;
  Image_DockerImageReference : string;
  DockerImageManifestMediaType : string
}.

Definition Image_set_DockerImageReference (i : Image) (r : string) : Image :=
  {| Image_Name := Image_Name i; Image_DockerImageReference := r;
     DockerImageManifestMediaType := DockerImageManifestMediaType i |}.

Record ImageStreamMapping := mkImageStreamMapping {
  ISM_Namespace : string;
  ISM_Name : string;
  ISM_Image : Image;
  ISM_Tag : string
}.

Record ImageBlobReferences := mkImageBlobReferences {
  Layers : list string;
  Config : option string             (* *string *)
}.

Record ImageStreamLayers := mkImageStreamLayers {
  Images : gmap string ImageBlobReferences
}.
End imageapiv1.

Import imageapiv1.

(** [digest.Digest] is a string type; [dgst.String()] is the identity. *)
Definition Digest := string.

(** ** Collaborators consumed through interfaces *)

(** A [client.Interface] value: the credential the requests are made with. *)
Record client := Client { identity : string }.

Definition loc := nat.

(** The error classifiers of [k8s.io/apimachinery/pkg/api/errors] and of
    [quotautil], on non-nil errors. *)
Class Classifiers := {
  IsNotFound : error -> bool;
  IsAlreadyExists : error -> bool;
  IsConflict : error -> bool;
  IsForbidden : error -> bool;
  IsUnauthorized : error -> bool;
  IsErrorQuotaExceeded : error -> bool
}.

(** Every classifier answers [false] on a nil error. *)
Definition on_error (p : error -> bool) (err : option error) : bool :=
  match err with
  | Some e => p e
  | None => false
  end.

(** The metadata service as seen through a client: each request reads and
    updates the service state [Σ] and yields the transport's reply. *)
Class Transport (Σ : Type) := {
  ImageStreamMappings_Create :
    client -> string -> ImageStreamMapping -> Σ -> option error * Σ;
  ImageStreams_Create :
    client -> string -> ImageStream -> Σ -> option error * Σ;
  ImageStreams_Get :
    client -> string -> string -> Σ -> (ImageStream + error) * Σ;
  ImageStreams_Layers :
    client -> string -> string -> Σ -> (ImageStreamLayers + error) * Σ;
  Images_Get :
    client -> string -> Σ -> (Image + error) * Σ
}.

(** [imageapi.DockerImageReference], as far as the facade reads it. *)
Record DockerImageReference := mkDockerImageReference {
  Registry : string
}.

Record RemoteRepository := mkRemoteRepository {
  RR_DockerImageReference : string
}.

Record ImageStreamReference := mkImageStreamReference {
  ISR_Namespace : string;
  ISR_Name : string
}.

(** ** pkg/origin-common/util: helpers over a stream snapshot *)

(** All the TagEvents of the status history, each with the tag it is recorded
    under, in the order of the history. *)
Definition tagEvents (stream : ImageStream) : list (string * TagEvent) :=
  history ← Status_Tags (Status stream);
  (λ ev, (Tag history, ev)) <$> Items history.

Definition records (imageID : string) (tev : string * TagEvent) : bool :=
  bool_decide (TagEvent_Image tev.2 = imageID).

(** Modelled from the spec: the error of [originutil.ResolveImageID], defined
    outside imagestream.go, when no TagEvent matches.  It is a not-found
    status error, which is what the facade tests the helper's error for. *)
Definition ResolveImageID_notFound (imageID : string) : error :=
  StatusError
    {| metav1.Message := "imagestreamimage " +:+ imageID +:+ " not found";
       metav1.Reason := "NotFound";
       metav1.Details := Some {| metav1.Name := imageID;
                                 metav1.Kind := "imagestreamimage" |};
       metav1.Code := 404 |}.

(** Modelled from the spec: the error of [originutil.ResolveImageID] when more
    than one TagEvent match, a conflict: an ambiguous identifier is
    unresolvable, which is not the same as absent. *)
Definition ResolveImageID_ambiguous (imageID : string) : error :=
  StatusError
    {| metav1.Message := "multiple images match " +:+ imageID;
       metav1.Reason := "Conflict";
       metav1.Details := Some {| metav1.Name := imageID;
                                 metav1.Kind := "imagestreamimage" |};
       metav1.Code := 409 |}.

(** Modelled from the spec: [originutil.ResolveImageID], defined outside
    imagestream.go.  It finds the single TagEvent across all tags whose
    recorded digest equals the target, and fails when zero or more than one
    TagEvent match. *)
Definition originutil_ResolveImageID (stream : ImageStream) (imageID : string)
  : TagEvent + error :=
  match filter (λ tev, records imageID tev) (tagEvents stream) with
  | [] => inr (ResolveImageID_notFound imageID)
  | [tev] => inl tev.2
  | _ :: _ :: _ => inr (ResolveImageID_ambiguous imageID)
  end.

(** Modelled from the spec: one step of the scan of
    [originutil.LatestImageTagEvent] for the most recent event; among equally
    recent events the first of the history wins. *)
Definition later (best : option (string * TagEvent)) (tev : string * TagEvent)
  : option (string * TagEvent) :=
  match best with
  | None => Some tev
  | Some b => if Created b.2 <? Created tev.2 then Some tev else Some b
  end.

(** Modelled from the spec: [originutil.LatestImageTagEvent], defined outside
    imagestream.go.  It locates the most recent TagEvent recording the digest
    and returns the tag it is recorded under with it; the empty tag and no
    event when no TagEvent records the digest. *)
Definition originutil_LatestImageTagEvent (stream : ImageStream) (imageID : string)
  : string * option TagEvent :=
  match foldl later None (filter (λ tev, records imageID tev) (tagEvents stream)) with
  | Some (tag, ev) => (tag, Some ev)
  | None => ("", None)
  end.

(** ** The rest of the package and of its imports *)

(** Constants and functions that the facade uses and that are defined outside
    imagestream.go, taken as parameters: the codes of the stream getter's
    errors, the
    annotation key [imageapi.InsecureRepositoryAnnotation], [digest.Parse],
    [imageapi.ParseDockerImageReference] (the reference it returns is read
    even when it also returns an error) and the resolver
    [remoteRepositoriesForImages]. *)
Class Imports := {
  ErrImageStreamGetterNotFoundCode : string;
  ErrImageStreamGetterForbiddenCode : string;
  ErrImageStreamGetterUnknownCode : string;
  InsecureRepositoryAnnotation : string;
  digest_Parse : string -> option Digest;
  ParseDockerImageReference : string -> DockerImageReference * option error;
  remoteRepositoriesForImages :
    ImageStream -> list string -> list RemoteRepository * list ImageStreamReference
}.

(** ** The getters and the facade object *)

(** Modelled from the spec: a memoization cell either is not yet fetched or
    holds the outcome of the fetch, a value or a failure. *)
Inductive memo (A : Type) : Type :=
| NotFetched
| Fetched (r : A + rerrors.Error).
Arguments NotFetched {A}.
Arguments Fetched {A} r.

(** Modelled from the spec: [cachedImageStreamGetter], defined outside
    imagestream.go.  It memoizes the stream snapshot and, independently, the
    blob index, each as a cell that holds the outcome of its one fetch. *)
Record cachedImageStreamGetter := mkCachedImageStreamGetter {
  (* the fields namespace, name and isNamespacer of the struct literals in
     New and Clone *)
  getter_namespace : string;
  getter_name : string;
  isNamespacer : client;
  cachedImageStream : memo ImageStream;
  cachedImageStreamLayers : memo ImageStreamLayers
}.

(** Modelled from the spec: [cachedImageGetter], defined outside
    imagestream.go.  It memoizes, per digest, the outcome of the fetch of the image
    record: the pointer to the record, or the failure. *)
Record cachedImageGetter := mkCachedImageGetter {
  getter_client : client;
  cache : gmap Digest (loc + error)
}.

(** Modelled from the spec: [newCachedImageGetter], defined outside
    imagestream.go, makes a getter that has fetched nothing yet. *)
Definition newCachedImageGetter (c : client) : cachedImageGetter :=
  {| getter_client := c; cache := ∅ |}.

(** The struct [imageStream].  Each facade owns its two getters: they are
    created in [New] and [Clone] and handed to nobody else, so they are kept
    in the facade object itself. *)
Record imageStream := mkImageStreamFacade {
  namespace : string;
  name : string;
  registryOSClient : client;
  imageClient : cachedImageGetter;
  imageStreamGetter : cachedImageStreamGetter
}.

Definition set_imageStreamGetter (self : imageStream) (g : cachedImageStreamGetter)
  : imageStream :=
  {| namespace := namespace self; name := name self;
     registryOSClient := registryOSClient self;
     imageClient := imageClient self; imageStreamGetter := g |}.

Definition set_imageClient (self : imageStream) (g : cachedImageGetter) : imageStream :=
  {| namespace := namespace self; name := name self;
     registryOSClient := registryOSClient self;
     imageClient := g; imageStreamGetter := imageStreamGetter self |}.

Definition set_cachedImageStream (g : cachedImageStreamGetter) (c : memo ImageStream)
  : cachedImageStreamGetter :=
  {| getter_namespace := getter_namespace g; getter_name := getter_name g;
     isNamespacer := isNamespacer g;
     cachedImageStream := c;
     cachedImageStreamLayers := cachedImageStreamLayers g |}.

Definition set_cachedImageStreamLayers (g : cachedImageStreamGetter)
    (c : memo ImageStreamLayers) : cachedImageStreamGetter :=
  {| getter_namespace := getter_namespace g; getter_name := getter_name g;
     isNamespacer := isNamespacer g;
     cachedImageStream := cachedImageStream g;
     cachedImageStreamLayers := c |}.

(** ** The state and the monad of the methods *)

(** What a request-scoped run does that can be observed from outside: the
    requests sent through a client, and the injection of a stream into a
    getter's cell. *)
Inductive event : Type :=
| CreateImageStreamMappingRequest (c : client) (ns : string) (ism : ImageStreamMapping)
| CreateImageStreamRequest (c : client) (ns : string) (stream : ImageStream)
| GetImageStreamRequest (c : client) (ns nm : string)
| GetImageStreamLayersRequest (c : client) (ns nm : string)
| GetImageRequest (c : client) (dgst : string)
| CacheImageStream (l : loc) (stream : ImageStream).

Record state (Σ : Type) := mkState {
  service : Σ;                    (* the metadata service *)
  trace : list event;             (* oldest first *)
  facades : list imageStream;     (* the heap of *imageStream *)
  images : list Image             (* the heap of *imageapiv1.Image *)
}.
Arguments mkState {Σ}.
Arguments service {Σ}.
Arguments trace {Σ}.
Arguments facades {Σ}.
Arguments images {Σ}.

Inductive outcome (Σ A : Type) : Type :=
| Returns (a : A) (s : state Σ)
| Panics (s : state Σ).
Arguments Returns {Σ A}.
Arguments Panics {Σ A}.

Definition M (Σ A : Type) : Type := state Σ -> outcome Σ A.

Definition ret {Σ A} (a : A) : M Σ A := λ s, Returns a s.

Definition bind {Σ A B} (m : M Σ A) (k : A -> M Σ B) : M Σ B :=
  λ s, match m s with
       | Returns a s' => k a s'
       | Panics s' => Panics s'
       end.

Definition panic {Σ A} : M Σ A := λ s, Panics s.

Notation "x <- m ;; k" := (bind m (λ x, k))
  (at level 100, m at next level, right associativity, only parsing).
Notation "m ;;; k" := (bind m (λ _, k))
  (at level 100, right associativity, only parsing).

(** Dereference of a pointer to a facade or to an image record. *)
Definition deref {Σ} (l : loc) : M Σ imageStream :=
  λ s, match facades s !! l with
       | Some self => Returns self s
       | None => Panics s
       end.

Definition deref_image {Σ} (p : loc) : M Σ Image :=
  λ s, match images s !! p with
       | Some img => Returns img s
       | None => Panics s
       end.

(** Dereference of a pointer that may be nil. *)
Definition deref_opt {Σ A} (p : option A) : M Σ A :=
  match p with
  | Some a => ret a
  | None => panic
  end.

Definition assign {Σ} (l : loc) (self : imageStream) : M Σ unit :=
  λ s, Returns tt {| service := service s; trace := trace s;
                     facades := <[l := self]> (facades s); images := images s |}.

Definition alloc {Σ} (self : imageStream) : M Σ loc :=
  λ s, Returns (length (facades s))
         {| service := service s; trace := trace s;
            facades := facades s ++ [self]; images := images s |}.

Definition alloc_image {Σ} (img : Image) : M Σ loc :=
  λ s, Returns (length (images s))
         {| service := service s; trace := trace s;
            facades := facades s; images := images s ++ [img] |}.

Definition emit {Σ} (ev : event) : M Σ unit :=
  λ s, Returns tt {| service := service s; trace := trace s ++ [ev];
                     facades := facades s; images := images s |}.

(** A request to the metadata service: it is logged, the service answers. *)
Definition request {Σ A} (ev : event) (call : Σ -> A * Σ) : M Σ A :=
  λ s, let (a, σ) := call (service s) in
       Returns a {| service := σ; trace := trace s ++ [ev];
                    facades := facades s; images := images s |}.

(** Go's short-circuit operators, the right operand being a computation. *)
Definition andM {Σ} (a : bool) (b : M Σ bool) : M Σ bool :=
  if a then b else ret false.

Definition orM {Σ} (a : bool) (b : M Σ bool) : M Σ bool :=
  if a then ret true else b.

(** ** The methods *)

Section Facade.
Context {Σ : Type} {T : Transport Σ} {K : Classifiers} {I : Imports}.

(** *** The stream getter *)

(** Modelled from the spec: the getter's error carries one of three internal
    codes, for the outcome classes not-found, forbidden and unknown. *)
Definition getterError (what : string) (g : cachedImageStreamGetter) (err : error)
  : rerrors.Error :=
  let code :=
    if IsNotFound err then ErrImageStreamGetterNotFoundCode
    else if IsForbidden err then ErrImageStreamGetterForbiddenCode
    else ErrImageStreamGetterUnknownCode in
  rerrors.NewError code
    ("failed to get " +:+ what +:+ " " +:+ getter_namespace g +:+ "/" +:+ getter_name g)
    (Some err).

(** Modelled from the spec: [get] performs the fetch on its first call and
    memoizes the outcome; later calls return the memoized outcome. *)
Definition get (l : loc) : M Σ (ImageStream + rerrors.Error) :=
  self <- deref l;;
  let g := imageStreamGetter self in
  match cachedImageStream g with
  | Fetched r => ret r
  | NotFetched =>
      reply <- request
        (GetImageStreamRequest (isNamespacer g) (getter_namespace g) (getter_name g))
        (ImageStreams_Get (isNamespacer g) (getter_namespace g) (getter_name g));;
      let r := match reply with
               | inl stream => inl stream
               | inr err => inr (getterError "image stream" g err)
               end in
      assign l (set_imageStreamGetter self (set_cachedImageStream g (Fetched r)));;;
      ret r
  end.

(** Modelled from the spec: [layers] is memoized independently of [get]. *)
Definition layers (l : loc) : M Σ (ImageStreamLayers + rerrors.Error) :=
  self <- deref l;;
  let g := imageStreamGetter self in
  match cachedImageStreamLayers g with
  | Fetched r => ret r
  | NotFetched =>
      reply <- request
        (GetImageStreamLayersRequest (isNamespacer g) (getter_namespace g) (getter_name g))
        (ImageStreams_Layers (isNamespacer g) (getter_namespace g) (getter_name g));;
      let r := match reply with
               | inl ls => inl ls
               | inr err => inr (getterError "image stream layers" g err)
               end in
      assign l (set_imageStreamGetter self (set_cachedImageStreamLayers g (Fetched r)));;;
      ret r
  end.

(** Modelled from the spec: [cacheImageStream] overwrites the memoized
    snapshot. *)
Definition cacheImageStream (l : loc) (stream : ImageStream) : M Σ unit :=
  self <- deref l;;
  emit (CacheImageStream l stream);;;
  assign l (set_imageStreamGetter self
              (set_cachedImageStream (imageStreamGetter self) (Fetched (inl stream)))).

(** *** The image getter *)

(** Modelled from the spec: the first [Get] for a digest performs the fetch
    and memoizes its outcome, success or failure; later calls for the digest
    return the memoized outcome. *)
Definition imageClient_Get (l : loc) (dgst : Digest) : M Σ (loc + error) :=
  self <- deref l;;
  let g := imageClient self in
  match cache g !! dgst with
  | Some r => ret r
  | None =>
      reply <- request (GetImageRequest (getter_client g) dgst)
                       (Images_Get (getter_client g) dgst);;
      r <- match reply with
           | inl img => p <- alloc_image img;; ret (inl p)
           | inr err => ret (inr err)
           end;;
      assign l (set_imageClient self
                  {| getter_client := getter_client g;
                     cache := <[dgst := r]> (cache g) |});;;
      ret r
  end.

(** *** The facade *)

Definition convertImageStreamGetterError (err : rerrors.Error) (msg : string)
  : rerrors.Error :=
  let code := ErrImageStreamUnknownErrorCode in
  let code :=
    if bool_decide (rerrors.Code err = ErrImageStreamGetterNotFoundCode)
    then ErrImageStreamNotFoundCode
    else if bool_decide (rerrors.Code err = ErrImageStreamGetterForbiddenCode)
    then ErrImageStreamForbiddenCode
    else code in
  rerrors.NewError code msg (Some (rerrors.as_error err)).

Definition New (namespace name : string) (client : client) : M Σ loc :=
  alloc {| namespace := namespace;
           name := name;
           registryOSClient := client;
           imageClient := newCachedImageGetter client;
           imageStreamGetter :=
             {| getter_namespace := namespace;
                getter_name := name;
                isNamespacer := client;
                cachedImageStream := NotFetched;
                cachedImageStreamLayers := NotFetched |} |}.

Definition Reference (self : imageStream) : string :=
  namespace self +:+ "/" +:+ name self.

Definition Clone (l : loc) (namespace' name' : string) : M Σ loc :=
  self <- deref l;;
  if bool_decide (namespace self = namespace') && bool_decide (name self = name')
  then ret l
  else
    alloc {| namespace := namespace';
             name := name';
             registryOSClient := registryOSClient self;
             imageClient := newCachedImageGetter (registryOSClient self);
             imageStreamGetter :=
               {| getter_namespace := namespace';
                  getter_name := name';
                  isNamespacer := registryOSClient self;
                  cachedImageStream := NotFetched;
                  cachedImageStreamLayers := NotFetched |} |}.

Definition getImage (l : loc) (dgst : Digest) : M Σ (loc + rerrors.Error) :=
  self <- deref l;;
  r <- imageClient_Get l dgst;;
  match r with
  | inr err =>
      if IsNotFound err then
        ret (inr (rerrors.NewError ErrImageStreamImageNotFoundCode
                    ("getImage: unable to find image digest " +:+ dgst +:+ " in "
                     +:+ name self)
                    (Some err)))
      else
        ret (inr (rerrors.NewError ErrImageStreamUnknownErrorCode
                    ("getImage: unable to get image digest " +:+ dgst +:+ " in "
                     +:+ name self)
                    (Some err)))
  | inl image => ret (inl image)
  end.

Definition ResolveImageID (l : loc) (dgst : Digest) : M Σ (TagEvent + rerrors.Error) :=
  self <- deref l;;
  r <- get l;;
  match r with
  | inr rErr =>
      ret (inr (convertImageStreamGetterError rErr
                  ("ResolveImageID: failed to get image stream " +:+ Reference self)))
  | inl stream =>
      match originutil_ResolveImageID stream dgst with
      | inr err =>
          let code := ErrImageStreamUnknownErrorCode in
          let code := if IsNotFound err then ErrImageStreamImageNotFoundCode else code in
          ret (inr (rerrors.NewError code
                      ("ResolveImageID: unable to resolve ImageID " +:+ dgst
                       +:+ " in image stream " +:+ Reference self)
                      (Some err)))
      | inl tagEvent => ret (inl tagEvent)
      end
  end.

Definition getStoredImageOfImageStream (l : loc) (dgst : Digest)
  : M Σ (loc * TagEvent + rerrors.Error) :=
  r <- ResolveImageID l dgst;;
  match r with
  | inr err => ret (inr err)
  | inl tagEvent =>
      r <- getImage l dgst;;
      match r with
      | inr err => ret (inr err)
      | inl image => ret (inl (image, tagEvent))
      end
  end.

Definition GetImageOfImageStream (l : loc) (dgst : Digest) : M Σ (loc + rerrors.Error) :=
  r <- getStoredImageOfImageStream l dgst;;
  match r with
  | inr err => ret (inr err)
  | inl (image, tagEvent) =>
      img <- deref_image image;;
      let img := Image_set_DockerImageReference img (TagEvent_DockerImageReference tagEvent) in
      p <- alloc_image img;;
      ret (inl p)
  end.

(** The loop of [TagIsInsecure] over the tag spec: the flag of the first
    entry with the name, if there is one. *)
Fixpoint specTagInsecure (tags : list TagReference) (tag : string) : option bool :=
  match tags with
  | [] => None
  | t :: tags' =>
      if bool_decide (TagReference_Name t = tag)
      then Some (Insecure (ImportPolicy t))
      else specTagInsecure tags' tag
  end.

Definition TagIsInsecure (l : loc) (tag : string) (dgst : Digest)
  : M Σ (bool * option rerrors.Error) :=
  self <- deref l;;
  r <- get l;;
  match r with
  | inr err =>
      ret (false, Some (convertImageStreamGetterError err
                          ("TagIsInsecure: failed to get image stream "
                           +:+ Reference self)))
  | inl stream =>
      let insecure := default "" (Annotations stream !! InsecureRepositoryAnnotation) in
      if bool_decide (insecure = "true") then ret (true, None)
      else
        let tag :=
          if bool_decide (String.length tag = 0%nat)
          then (originutil_LatestImageTagEvent stream dgst).1
          else tag in
        if negb (bool_decide (String.length tag = 0%nat)) then
          match specTagInsecure (Spec_Tags (Spec stream)) tag with
          | Some b => ret (b, None)
          | None => ret (false, None)
          end
        else ret (false, None)
  end.

Definition Exists (l : loc) : M Σ (bool * option rerrors.Error) :=
  self <- deref l;;
  r <- get l;;
  match r with
  | inr rErr =>
      if bool_decide (rerrors.Code rErr = ErrImageStreamGetterNotFoundCode)
      then ret (false, None)
      else ret (false, Some (convertImageStreamGetterError rErr
                               ("Exists: failed to get image stream "
                                +:+ Reference self)))
  | inl _ => ret (true, None)
  end.

(** The warnings it logs apart, [getLocalRegistryNames] is a function of the
    stream. *)
Definition getLocalRegistryNames (stream : ImageStream) : list string :=
  let localNames : list string := [] in
  let (local, _) := ParseDockerImageReference (DockerImageRepository (Status stream)) in
  let localNames :=
    if negb (bool_decide (String.length (Registry local) = 0%nat))
    then (localNames ++ [Registry local])%list else localNames in
  if negb (bool_decide (String.length (PublicDockerImageRepository (Status stream)) = 0%nat))
  then
    let (public, _) :=
      ParseDockerImageReference (PublicDockerImageRepository (Status stream)) in
    if negb (bool_decide (String.length (Registry public) = 0%nat))
    then (localNames ++ [Registry public])%list else localNames
  else localNames.

Definition localPrefixes (stream : ImageStream) : list string :=
  (λ registry, registry +:+ "/" +:+ Namespace stream +:+ "/" +:+ Name stream +:+ "@")
    <$> getLocalRegistryNames stream.

(** The three nested loops, each of which leaves at its first hit. *)
Definition imageStreamHasExternalReferences (stream : ImageStream) : bool :=
  let localPrefixes := localPrefixes stream in
  existsb (λ tag,
    existsb (λ item,
      let local :=
        existsb (λ p, HasPrefix (TagEvent_DockerImageReference item) p) localPrefixes in
      negb local)
    (Items tag))
  (Status_Tags (Status stream)).

Definition imageBlobReferencesHasBlob (info : ImageBlobReferences) (dgst : Digest) : bool :=
  match Config info with
  | Some c => bool_decide (c = dgst)
  | None => false
  end
  || existsb (λ layer, bool_decide (layer = dgst)) (Layers info).

(** Go leaves the order in which a map is ranged over unspecified; here it
    is the order of [map_to_list]. *)
Definition RemoteRepositoriesForBlob (l : loc) (dgst : Digest)
  : M Σ (list RemoteRepository * list ImageStreamReference * option rerrors.Error) :=
  self <- deref l;;
  r <- get l;;
  match r with
  | inr err =>
      ret ([], [], Some (convertImageStreamGetterError err
                           ("RemoteRepositoriesForBlob: failed to get image stream "
                            +:+ Reference self)))
  | inl stream =>
      if negb (imageStreamHasExternalReferences stream) then ret ([], [], None)
      else
        r <- layers l;;
        match r with
        | inr err =>
            ret ([], [], Some (convertImageStreamGetterError err
                   ("RemoteRepositoriesForBlob: failed to get image stream layers "
                    +:+ Reference self)))
        | inl layers =>
            let images :=
              (filter (λ kv : string * ImageBlobReferences,
                         imageBlobReferencesHasBlob kv.2 dgst)
                      (map_to_list (Images layers))).*1 in
            if bool_decide (length images = 0%nat) then ret ([], [], None)
            else
              let (repos, isrefs) := remoteRepositoriesForImages stream images in
              ret (repos, isrefs, None)
        end
  end.

Definition Tags (l : loc) : M Σ (gmap string Digest + rerrors.Error) :=
  self <- deref l;;
  r <- get l;;
  match r with
  | inr err =>
      ret (inr (convertImageStreamGetterError err
                  ("Tags: failed to get image stream " +:+ Reference self)))
  | inl stream =>
      let m :=
        foldl (λ (m : gmap string Digest) history,
                 match Items history with
                 | [] => m
                 | item0 :: _ =>
                     match digest_Parse (TagEvent_Image item0) with
                     | None => m
                     | Some dgst => <[Tag history := dgst]> m
                     end
                 end)
              ∅ (Status_Tags (Status stream)) in
      ret (inl m)
  end.

Definition CreateImageStreamMapping
    (l : loc) (userClient : client) (tag : string) (image : loc)
  : M Σ (option rerrors.Error) :=
  self <- deref l;;
  img <- deref_image image;;
  let ism := {| ISM_Namespace := namespace self;
                ISM_Name := name self;
                ISM_Image := img;
                ISM_Tag := tag |} in
  err <- request
    (CreateImageStreamMappingRequest (registryOSClient self) (namespace self) ism)
    (ImageStreamMappings_Create (registryOSClient self) (namespace self) ism);;
  match err with
  | None => ret None
  | Some e =>
  if IsErrorQuotaExceeded e then
    ret (Some (rerrors.NewError ErrImageStreamForbiddenCode
                 ("CreateImageStreamMapping: quota exceeded during creation of "
                  +:+ Reference self +:+ " ImageStreamMapping")
                 err))
  else
  (* if the error was that the image stream wasn't found, try to auto
     provision it *)
  match e with
  | PlainError _ | RegistryError _ _ _ =>
      ret (Some (rerrors.NewError ErrImageStreamUnknownErrorCode
                   ("CreateImageStreamMapping: error creating "
                    +:+ Reference self +:+ " ImageStreamMapping")
                   err))
  | StatusError status =>
  isNamespace <-
    andM (IsNotFound e)
         (details <- deref_opt (metav1.Details status);;
          ret (bool_decide (ToLower (metav1.Kind details) = "namespaces")));;
  if isNamespace then
    ret (Some (rerrors.NewError ErrImageStreamForbiddenCode
                 ("CreateImageStreamMapping: error creating "
                  +:+ Reference self +:+ " ImageStreamMapping")
                 err))
  else
  let isValidKind :=
    match metav1.Details status with
    | Some details => bool_decide (metav1.Kind details = "imagestreammappings")
    | None => false
    end in
  otherShape <-
    orM (negb isValidKind)
      (orM (negb (bool_decide (metav1.Code status = http_StatusNotFound)))
         (details <- deref_opt (metav1.Details status);;
          ret (negb (bool_decide (metav1.Name details = name self)))));;
  if otherShape then
    ret (Some (rerrors.NewError ErrImageStreamUnknownErrorCode
                 ("CreateImageStreamMapping: error creation of "
                  +:+ Reference self +:+ " ImageStreamMapping")
                 err))
  else
  let stream := ImageStream_set_Name ImageStream_zero (name self) in
  err <- request
    (CreateImageStreamRequest userClient (namespace self) stream)
    (ImageStreams_Create userClient (namespace self) stream);;
  let secondTime : M Σ (option rerrors.Error) :=
    cacheImageStream l stream;;;
    (* try to create the ISM again *)
    err <- request
      (CreateImageStreamMappingRequest (registryOSClient self) (namespace self) ism)
      (ImageStreamMappings_Create (registryOSClient self) (namespace self) ism);;
    match err with
    | None => ret None
    | Some e =>
        if IsErrorQuotaExceeded e then
          ret (Some (rerrors.NewError ErrImageStreamForbiddenCode
                       ("CreateImageStreamMapping: quota exceeded during creation of "
                        +:+ Reference self +:+ " ImageStreamMapping second time")
                       err))
        else
          ret (Some (rerrors.NewError ErrImageStreamUnknownErrorCode
                       ("CreateImageStreamMapping: error creating "
                        +:+ Reference self +:+ " ImageStreamMapping second time")
                       err))
    end in
  if on_error IsAlreadyExists err || on_error IsConflict err then
    (* It is ok. *)
    secondTime
  else if on_error IsForbidden err || on_error IsUnauthorized err
          || on_error IsErrorQuotaExceeded err then
    ret (Some (rerrors.NewError ErrImageStreamForbiddenCode
                 ("CreateImageStreamMapping: denied creating ImageStream "
                  +:+ Reference self)
                 err))
  else if bool_decide (is_Some err) then
    ret (Some (rerrors.NewError ErrImageStreamUnknownErrorCode
                 ("CreateImageStreamMapping: error auto provisioning ImageStream "
                  +:+ Reference self)
                 err))
  else secondTime
  end
  end.

End Facade.

(** ** Instances of the collaborators, for the examples *)

(** The classifiers of apimachinery read the reason of a status error. *)
Definition hasReason (reason : string) (e : error) : bool :=
  match e with
  | StatusError status => bool_decide (metav1.Reason status = reason)
  | _ => false
  end.

(** A forbidden request whose message tells of an exceeded quota. *)
Definition quotaMessage (e : error) : bool :=
  match e with
  | StatusError status =>
      bool_decide (metav1.Reason status = "Forbidden")
      && bool_decide (is_Some (index 0 "exceeded quota" (ToLower (metav1.Message status))))
  | _ => false
  end.

Definition NewStatusError (reason : string) (code : Z) (details : option metav1.StatusDetails)
  : error :=
  StatusError {| metav1.Message := reason; metav1.Reason := reason;
                 metav1.Details := details; metav1.Code := code |}.

Definition NewNotFound (kind name : string) : error :=
  NewStatusError "NotFound" 404 (Some {| metav1.Name := name; metav1.Kind := kind |}).

Global Instance apimachinery : Classifiers := {|
  IsNotFound := hasReason "NotFound";
  IsAlreadyExists := hasReason "AlreadyExists";
  IsConflict := hasReason "Conflict";
  IsForbidden := hasReason "Forbidden";
  IsUnauthorized := hasReason "Unauthorized";
  IsErrorQuotaExceeded := quotaMessage
|}.

(** A metadata service that answers from a script. *)
Record scripted := mkScripted {
  mappingReplies : list (option error);   (* to the successive mapping creates *)
  streamReplies : list (option error);    (* to the successive stream creates *)
  streamRecord : ImageStream + error;
  layersRecord : ImageStreamLayers + error;
  imageRecords : gmap string Image
}.

Global Instance scripted_transport : Transport scripted := {|
  ImageStreamMappings_Create _ _ _ σ :=
    (default None (head (mappingReplies σ)),
     {| mappingReplies := tail (mappingReplies σ); streamReplies := streamReplies σ;
        streamRecord := streamRecord σ; layersRecord := layersRecord σ;
        imageRecords := imageRecords σ |});
  ImageStreams_Create _ _ _ σ :=
    (default None (head (streamReplies σ)),
     {| mappingReplies := mappingReplies σ; streamReplies := tail (streamReplies σ);
        streamRecord := streamRecord σ; layersRecord := layersRecord σ;
        imageRecords := imageRecords σ |});
  ImageStreams_Get _ _ _ σ := (streamRecord σ, σ);
  ImageStreams_Layers _ _ _ σ := (layersRecord σ, σ);
  Images_Get _ dgst σ :=
    (match imageRecords σ !! dgst with
     | Some img => inl img
     | None => inr (NewNotFound "images" dgst)
     end, σ)
|}.

(** The host of a reference: what precedes its first slash. *)
Fixpoint hostOf (s : string) : string :=
  match s with
  | EmptyString => EmptyString
  | String c s' => if bool_decide (c = "/"%char) then EmptyString else String c (hostOf s')
  end.

Global Instance example_imports : Imports := {|
  ErrImageStreamGetterNotFoundCode := "ImageStreamGetter:NotFound";
  ErrImageStreamGetterForbiddenCode := "ImageStreamGetter:Forbidden";
  ErrImageStreamGetterUnknownCode := "ImageStreamGetter:Unknown";
  InsecureRepositoryAnnotation := "openshift.io/image.insecureRepository";
  digest_Parse s := if String.prefix "sha256:" s then Some s else None;
  ParseDockerImageReference s :=
    ({| Registry := hostOf s |},
     if bool_decide (s = "") then Some (PlainError "empty reference") else None);
  remoteRepositoriesForImages _ _ := ([], [])
|}.

Definition registryClient : client := Client "system:serviceaccount:registry".
Definition pusher : client := Client "alice".

(** A facade on [ns/app] that has fetched nothing yet, and an image. *)
Definition example_facade : imageStream :=
  {| namespace := "ns"; name := "app";
     registryOSClient := registryClient;
     imageClient := newCachedImageGetter registryClient;
     imageStreamGetter :=
       {| getter_namespace := "ns"; getter_name := "app";
          isNamespacer := registryClient;
          cachedImageStream := NotFetched;
          cachedImageStreamLayers := NotFetched |} |}.

Definition example_image : Image :=
  {| Image_Name := "sha256:aa";
     Image_DockerImageReference := "registry.local/ns/app@sha256:aa";
     DockerImageManifestMediaType := "application/vnd.docker.distribution.manifest.v2+json" |}.

Definition example_event (created : Z) (ref dgst : string) : TagEvent :=
  {| Created := created; TagEvent_DockerImageReference := ref; TagEvent_Image := dgst |}.

Definition example_stream (annotations : gmap string string)
    (spec : list TagReference) (tags : list NamedTagEventList) : ImageStream :=
  {| Namespace := "ns"; Name := "app"; Annotations := annotations;
     Spec := {| Spec_Tags := spec |};
     Status := {| DockerImageRepository := "registry.local/ns/app";
                  PublicDockerImageRepository := "registry.example.com/ns/app";
                  Status_Tags := tags |} |}.

Definition example_service (mappings streams : list (option error))
    (stream : ImageStream + error) : scripted :=
  {| mappingReplies := mappings; streamReplies := streams;
     streamRecord := stream;
     layersRecord := inl {| Images := ∅ |};
     imageRecords := {[ "sha256:aa" := example_image ]} |}.

Definition example_state (σ : scripted) : state scripted :=
  {| service := σ; trace := []; facades := [example_facade]; images := [example_image] |}.

(** The facade once it has fetched [stream], and the state it is then in. *)
Definition example_fetched_facade (stream : ImageStream) : imageStream :=
  set_imageStreamGetter example_facade
    (set_cachedImageStream (imageStreamGetter example_facade) (Fetched (inl stream))).

Definition example_fetched (σ : scripted) (stream : ImageStream) : state scripted :=
  {| service := σ;
     trace := [GetImageStreamRequest registryClient "ns" "app"];
     facades := [example_fetched_facade stream];
     images := [example_image] |}.

(** A stream whose one tag, [latest], holds one local image. *)
Definition example_event_aa : TagEvent :=
  example_event 10 "registry.local/ns/app@sha256:aa" "sha256:aa".

Definition example_local_stream : ImageStream :=
  example_stream ∅
    [{| TagReference_Name := "latest";
        ImportPolicy := {| Insecure := true; Scheduled := false |} |}]
    [{| Tag := "latest"; Items := [example_event_aa] |}].

(** A stream with a healthy tag, a tag whose head digest is corrupt and a tag
    without history. *)
Definition example_mixed_stream : ImageStream :=
  example_stream ∅ []
    [{| Tag := "latest"; Items := [example_event_aa] |};
     {| Tag := "broken"; Items := [example_event 11 "elsewhere/x/y@zz" "zz"] |};
     {| Tag := "empty"; Items := [] |}].

(** The replies of the metadata service to a mapping create. *)
Definition example_stream_missing : error := NewNotFound "imagestreammappings" "app".
Definition example_namespace_missing : error := NewNotFound "Namespaces" "ns".
Definition example_bare_not_found : error := NewStatusError "NotFound" 404 None.
Definition example_already_exists : error :=
  NewStatusError "AlreadyExists" 409
    (Some {| metav1.Name := "app"; metav1.Kind := "imagestreams" |}).

Definition example_mapping : ImageStreamMapping :=
  {| ISM_Namespace := "ns"; ISM_Name := "app";
     ISM_Image := example_image; ISM_Tag := "latest" |}.

(** ** Manifests and limit ranges *)

Module corev1.
Record LimitRange := mkLimitRange {
  LimitRange_Name : string
}.

Record LimitRangeList := mkLimitRangeList {
  LimitRange_Items : list LimitRange
}.
End corev1.

(** A [runtime.Object] held by a project cache: a [*corev1.LimitRangeList],
    which may be a nil pointer, or a value of another type. *)
Inductive Object : Type :=
| LimitRangeListObject (lrs : option corev1.LimitRangeList)
| OtherObject (kind : string).

(** The interface [ProjectObjectListStore], over the state [C] of the store.
    [Get] yields the object (nil when [None]), whether it exists, and an
    error. *)
Class ProjectObjectListStore (C : Type) := {
  Store_Add : string -> Object -> C -> option error * C;
  Store_Get : string -> C -> (option Object * bool * option error) * C
}.

(** [client.LimitRanges(namespace).List] of the metadata service. *)
Class LimitRangeLister (Σ : Type) := {
  LimitRanges_List : client -> string -> Σ -> (corev1.LimitRangeList + error) * Σ
}.

(** A request that the trace of events has no entry for: the service answers
    and moves on. *)
Definition call {Σ A} (f : Σ -> A * Σ) : M Σ A :=
  λ s, let (a, σ) := f (service s) in
       Returns a {| service := σ; trace := trace s;
                    facades := facades s; images := images s |}.

Section Manifests.
Context {Σ : Type} {T : Transport Σ} {K : Classifiers} {I : Imports}.

Definition RemoteRepositoriesForManifest (l : loc) (dgst : Digest)
  : M Σ (list RemoteRepository * list ImageStreamReference * option rerrors.Error) :=
  self <- deref l;;
  r <- get l;;
  match r with
  | inr err =>
      ret ([], [], Some (convertImageStreamGetterError err
                           ("RemoteRepositoriesForManifest: failed to get image stream "
                            +:+ Reference self)))
  | inl stream =>
      let (repos, isrefs) := remoteRepositoriesForImages stream [dgst] in
      ret (repos, isrefs, None)
  end.

End Manifests.

Section LimitRanges.
Context {Σ : Type} {L : LimitRangeLister Σ} {C : Type} {S : ProjectObjectListStore C}.

(** The cache is the caller's object: [None] is the nil interface, and the
    state the store is left in is returned with the results.  The type
    assertion on the cached object panics when the object is nil or is not a
    [*corev1.LimitRangeList]. *)
Definition GetLimitRangeList (l : loc) (cache : option C)
  : M Σ (option corev1.LimitRangeList * option rerrors.Error * option C) :=
  self <- deref l;;
  let list (cache : option C)
    : M Σ (option corev1.LimitRangeList * option rerrors.Error * option C) :=
    r <- call (LimitRanges_List (registryOSClient self) (namespace self));;
    match r with
    | inr err =>
        ret (None,
             Some (rerrors.NewError ErrImageStreamUnknownErrorCode
                     ("GetLimitRangeList: failed to list limitranges for "
                      +:+ Reference self)
                     (Some err)),
             cache)
    | inl lrs =>
        match cache with
        | Some c =>
            let (_, c) := Store_Add (namespace self) (LimitRangeListObject (Some lrs)) c in
            ret (Some lrs, None, Some c)
        | None => ret (Some lrs, None, None)
        end
    end in
  match cache with
  | Some c =>
      let '(obj, exists_, _, c) := Store_Get (namespace self) c in
      if exists_ : bool then
        match obj with
        | Some (LimitRangeListObject lrs) => ret (lrs, None, Some c)
        | Some (OtherObject _) | None => panic
        end
      else list (Some c)
  | None => list None
  end.

End LimitRanges.

(** A metadata service that counts the lists of limit ranges it has served;
    it knows no limit ranges outside a namespace. *)
Global Instance counting_lister : LimitRangeLister nat := {|
  LimitRanges_List _ ns served :=
    (if bool_decide (ns = "")
     then inr (PlainError "no namespace")
     else inl {| corev1.LimitRange_Items :=
                   [{| corev1.LimitRange_Name := ns +:+ "-limits" |}] |},
     S served)
|}.

(** A project cache that keeps what it is given. *)
Global Instance map_store : ProjectObjectListStore (gmap string Object) := {|
  Store_Add ns obj c := (None, <[ns := obj]> c);
  Store_Get ns c := (c !! ns, bool_decide (is_Some (c !! ns)), None, c)
|}.

Definition counting_state (served : nat) : state nat :=
  {| service := served; trace := []; facades := [example_facade]; images := [] |}.

(** ** Notions of the specification *)

(** The state in which a run ends, whether it returns or panics. *)
Definition final {Σ A} (o : outcome Σ A) : state Σ :=
  match o with
  | Returns _ s => s
  | Panics s => s
  end.

(** The parsed head digest of a tag's history: the digest of its first, most
    recent TagEvent, when there is one and its digest string parses. *)
Definition headDigest `{Imports} (history : NamedTagEventList) : option Digest :=
  ev ← head (Items history); digest_Parse (TagEvent_Image ev).

(** The failure that tells that the stream does not exist yet: a status error
    of owning-resource kind "imagestreammappings", of status code 404, whose
    detail name is the name of the stream. *)
Definition streamMissing (name : string) (e : error) : Prop :=
  ∃ status details,
    e = StatusError status
    ∧ metav1.Details status = Some details
    ∧ metav1.Kind details = "imagestreammappings"
    ∧ metav1.Code status = 404
    ∧ metav1.Name details = name.

(** The failure that tells that the namespace is gone: a structured not-found
    error whose owning-resource kind reads "namespaces" in whatever case. *)
Definition namespaceMissing `{Classifiers} (e : error) : Prop :=
  ∃ status details,
    e = StatusError status
    ∧ IsNotFound e = true
    ∧ metav1.Details status = Some details
    ∧ ToLower (metav1.Kind details) = "namespaces".

(** A structured not-found error that carries no details. *)
Definition notFoundWithoutDetails `{Classifiers} (e : error) : Prop :=
  ∃ status,
    e = StatusError status
    ∧ IsNotFound e = true
    ∧ metav1.Details status = None.

(** [tag] is the tag of a most recent TagEvent recording [dgst], or the empty
    tag when no TagEvent records it. *)
Definition mostRecentTag (stream : ImageStream) (dgst : Digest) (tag : string) : Prop :=
  (tag = "" ∧ ∀ tev, tev ∈ tagEvents stream → TagEvent_Image tev.2 ≠ dgst)
  ∨ ∃ ev, (tag, ev) ∈ tagEvents stream
          ∧ TagEvent_Image ev = dgst
          ∧ ∀ tev, tev ∈ tagEvents stream → TagEvent_Image tev.2 = dgst →
                   Created tev.2 ≤ Created ev.

(** * Properties *)

(** ** Strings *)

Lemma append_String (c : ascii) (p rest : string) :
  String c p +:+ rest = String c (p +:+ rest).
Proof. reflexivity. Qed.

Lemma prefix_spec (p s : string) :
  String.prefix p s = true ↔ ∃ rest, s = p +:+ rest.
Proof.
  revert s. induction p as [|c p IH]; intros s.
  - split; [intros _; by exists s | by destruct s].
  - destruct s as [|c' s]; cbn.
    + split; [done | intros [rest Hrest]; discriminate].
    + setoid_rewrite append_String.
      destruct (Ascii.ascii_dec c c') as [->|Hne].
      * rewrite IH. split; intros [rest Hrest]; exists rest; congruence.
      * split; [done | intros [rest Hrest]; congruence].
Qed.

Lemma ToLower_imagestreammappings : ToLower "imagestreammappings" ≠ "namespaces".
Proof. by vm_compute. Qed.

(** ** The monad *)

Section Properties.
Context {Σ : Type} {T : Transport Σ} {K : Classifiers} {I : Imports}.

Implicit Types (s : state Σ) (l : loc) (self : imageStream).

Lemma bind_Returns {A B} (m : M Σ A) (k : A -> M Σ B) s a s' :
  m s = Returns a s' → bind m k s = k a s'.
Proof. unfold bind. by intros ->. Qed.

Lemma deref_Some s l self :
  facades s !! l = Some self → deref l s = Returns self s.
Proof. unfold deref. by intros ->. Qed.

Lemma deref_image_Some s p img :
  images s !! p = Some img → deref_image p s = Returns img s.
Proof. unfold deref_image. by intros ->. Qed.

(** ** Clone *)

(** C10.  [Clone] called with the namespace and the name of the receiver
    returns the receiver itself, the very object with the caches it has
    filled, and changes nothing.  Called with another identity it allocates
    a fresh facade for that identity, with empty caches and the receiver's
    transport client, and leaves every existing facade as it is. *)
Theorem Clone_receiver_or_fresh s l self ns nm :
  facades s !! l = Some self →
  (namespace self = ns ∧ name self = nm → Clone l ns nm s = Returns l s)
  ∧ (¬ (namespace self = ns ∧ name self = nm) →
     ∃ l' s' fresh,
       Clone l ns nm s = Returns l' s'
       ∧ l' ≠ l ∧ facades s !! l' = None
       ∧ facades s' !! l' = Some fresh
       ∧ namespace fresh = ns ∧ name fresh = nm
       ∧ registryOSClient fresh = registryOSClient self
       ∧ imageClient fresh = newCachedImageGetter (registryOSClient self)
       ∧ cache (imageClient fresh) = ∅
       ∧ isNamespacer (imageStreamGetter fresh) = registryOSClient self
       ∧ cachedImageStream (imageStreamGetter fresh) = NotFetched
       ∧ cachedImageStreamLayers (imageStreamGetter fresh) = NotFetched
       ∧ (∀ k other, facades s !! k = Some other → facades s' !! k = Some other)
       ∧ service s' = service s ∧ trace s' = trace s ∧ images s' = images s).
Proof.
  intros Hl. unfold Clone. rewrite (bind_Returns _ _ _ _ _ (deref_Some _ _ _ Hl)).
  split.
  - intros [-> ->]. by rewrite !bool_decide_eq_true_2.
  - intros Hne.
    assert (bool_decide (namespace self = ns) && bool_decide (name self = nm) = false)
      as ->.
    { apply andb_false_iff.
      destruct (decide (namespace self = ns)) as [Hns|Hns];
        [right | left]; apply bool_decide_eq_false_2; naive_solver. }
    assert (l < length (facades s))%nat by eauto using lookup_lt_Some.
    eexists _, _, _. split; [reflexivity|]. simpl.
    split; [lia|]. split; [by apply lookup_ge_None_2|].
    split; [by rewrite lookup_app_r, Nat.sub_diag|].
    split_and!; try done.
    intros k other Hk. by apply lookup_app_l_Some.
Qed.

(** ** The stream getter *)

Lemma set_cachedImageStream_id self r :
  cachedImageStream (imageStreamGetter self) = Fetched r →
  set_imageStreamGetter self
    (set_cachedImageStream (imageStreamGetter self) (Fetched r)) = self.
Proof. destruct self as [? ? ? ? []]; simpl. by intros ->. Qed.

(** [get] always returns.  It leaves the outcome in the cell of the stream
    snapshot, touches nothing else of the facade and no other object, and
    sends at most the one request for the stream. *)
Lemma get_Returns s l self :
  facades s !! l = Some self →
  ∃ r s',
    get l s = Returns r s'
    ∧ facades s' = <[l := set_imageStreamGetter self
                            (set_cachedImageStream (imageStreamGetter self) (Fetched r))]>
                     (facades s)
    ∧ images s' = images s
    ∧ (trace s' = trace s ∧ service s' = service s
       ∨ ∃ c ns nm, trace s' = (trace s ++ [GetImageStreamRequest c ns nm])%list).
Proof.
  intros Hl. unfold get. rewrite (bind_Returns _ _ _ _ _ (deref_Some _ _ _ Hl)).
  destruct (cachedImageStream (imageStreamGetter self)) as [|r] eqn:Hcell.
  - unfold bind, request.
    destruct (ImageStreams_Get _ _ _ (service s)) as [reply σ]. simpl.
    eexists _, _. split; [reflexivity|]. simpl. split_and!; eauto.
  - exists r, s. split; [done|]. rewrite set_cachedImageStream_id by done.
    rewrite list_insert_id by done. eauto.
Qed.

Lemma get_facade s l self r s' :
  facades s !! l = Some self → get l s = Returns r s' →
  facades s' !! l =
    Some (set_imageStreamGetter self
            (set_cachedImageStream (imageStreamGetter self) (Fetched r))).
Proof.
  intros Hl Hget. destruct (get_Returns s l self Hl) as (r' & s'' & Hget' & Hf & _).
  rewrite Hget in Hget'. injection Hget' as <- <-.
  rewrite Hf. apply list_lookup_insert_eq. eauto using lookup_lt_Some.
Qed.

(** ** Exists *)

(** C5.  [Exists] returns true and no error exactly when the stream getter
    resolves the stream.  When the getter reports its not-found code it
    returns false and no error; when the getter reports its forbidden code
    it returns false with an error of code Forbidden, and on any other
    getter error false with an error of code Unknown; the error wraps the
    getter's.  The two getter codes are distinct constants. *)
Theorem Exists_reports s l self :
  facades s !! l = Some self →
  ErrImageStreamGetterNotFoundCode ≠ ErrImageStreamGetterForbiddenCode →
  ∃ r s',
    get l s = Returns r s'
    ∧ (∀ stream, r = inl stream → Exists l s = Returns (true, None) s')
    ∧ (∀ rErr, r = inr rErr →
         rerrors.Code rErr = ErrImageStreamGetterNotFoundCode →
         Exists l s = Returns (false, None) s')
    ∧ (∀ rErr, r = inr rErr →
         rerrors.Code rErr = ErrImageStreamGetterForbiddenCode →
         ∃ e, Exists l s = Returns (false, Some e) s'
              ∧ rerrors.Code e = ErrImageStreamForbiddenCode
              ∧ rerrors.Err e = Some (rerrors.as_error rErr))
    ∧ (∀ rErr, r = inr rErr →
         rerrors.Code rErr ≠ ErrImageStreamGetterNotFoundCode →
         rerrors.Code rErr ≠ ErrImageStreamGetterForbiddenCode →
         ∃ e, Exists l s = Returns (false, Some e) s'
              ∧ rerrors.Code e = ErrImageStreamUnknownErrorCode
              ∧ rerrors.Err e = Some (rerrors.as_error rErr))
    ∧ ((∃ s'', Exists l s = Returns (true, None) s'') ↔ ∃ stream, r = inl stream).
Proof.
  intros Hl Hcodes. destruct (get_Returns s l self Hl) as (r & s' & Hget & _).
  exists r, s'. split; [done|].
  unfold Exists. rewrite (bind_Returns _ _ _ _ _ (deref_Some _ _ _ Hl)).
  rewrite (bind_Returns _ _ _ _ _ Hget).
  split_and!.
  - by intros stream ->.
  - intros rErr -> Hcode. by rewrite bool_decide_eq_true_2.
  - intros rErr -> Hcode.
    rewrite bool_decide_eq_false_2 by congruence.
    eexists. split; [reflexivity|]. simpl.
    rewrite bool_decide_eq_false_2 by congruence.
    by rewrite bool_decide_eq_true_2.
  - intros rErr -> Hnf Hfb.
    rewrite bool_decide_eq_false_2 by done.
    eexists. split; [reflexivity|]. simpl.
    by rewrite !bool_decide_eq_false_2.
  - split.
    + intros [s'' Hex]. destruct r as [stream|rErr]; [by eexists|].
      by case_bool_decide.
    + intros [stream ->]. by eexists.
Qed.

(** ** ResolveImageID *)

Lemma elem_of_tagEvents stream tag ev :
  (tag, ev) ∈ tagEvents stream ↔
  ∃ history, history ∈ Status_Tags (Status stream)
             ∧ Tag history = tag ∧ ev ∈ Items history.
Proof.
  unfold tagEvents. rewrite list_elem_of_bind. split.
  - intros (history & Hev & Hh). apply list_elem_of_fmap in Hev as (ev' & Heq & Hev).
    injection Heq as -> ->. eauto.
  - intros (history & Hh & <- & Hev). exists history. split; [|done].
    apply list_elem_of_fmap. eauto.
Qed.

Lemma ResolveImageID_of_get s l self dgst stream s' :
  facades s !! l = Some self →
  get l s = Returns (inl stream) s' →
  ResolveImageID l dgst s =
    match originutil_ResolveImageID stream dgst with
    | inl tagEvent => Returns (inl tagEvent) s'
    | inr err =>
        Returns (inr (rerrors.NewError
                        (if IsNotFound err then ErrImageStreamImageNotFoundCode
                         else ErrImageStreamUnknownErrorCode)
                        ("ResolveImageID: unable to resolve ImageID " +:+ dgst
                         +:+ " in image stream " +:+ Reference self)
                        (Some err))) s'
    end.
Proof.
  intros Hl Hget. unfold ResolveImageID.
  rewrite (bind_Returns _ _ _ _ _ (deref_Some _ _ _ Hl)).
  rewrite (bind_Returns _ _ _ _ _ Hget).
  by destruct (originutil_ResolveImageID stream dgst).
Qed.

(** C7.  On a resolved stream, [ResolveImageID] returns a TagEvent exactly
    when exactly one TagEvent across all the tags of the status history
    records the digest, and it is that TagEvent.  When none records it the
    call fails with the code ImageNotFound; when more than one do, it fails
    with the code Unknown.  The helper's not-found error is classified as
    not-found and its conflict error is not. *)
Theorem ResolveImageID_single_match s l self dgst stream s' :
  facades s !! l = Some self →
  IsNotFound (ResolveImageID_notFound dgst) = true →
  IsNotFound (ResolveImageID_ambiguous dgst) = false →
  get l s = Returns (inl stream) s' →
  let matches := filter (λ tev, records dgst tev) (tagEvents stream) in
  (length matches = 1%nat →
     ∃ tag ev, matches = [(tag, ev)]
               ∧ ResolveImageID l dgst s = Returns (inl ev) s'
               ∧ (tag, ev) ∈ tagEvents stream
               ∧ TagEvent_Image ev = dgst)
  ∧ (length matches = 0%nat →
     ∃ e, ResolveImageID l dgst s = Returns (inr e) s'
          ∧ rerrors.Code e = ErrImageStreamImageNotFoundCode)
  ∧ ((1 < length matches)%nat →
     ∃ e, ResolveImageID l dgst s = Returns (inr e) s'
          ∧ rerrors.Code e = ErrImageStreamUnknownErrorCode)
  ∧ ((∃ ev s'', ResolveImageID l dgst s = Returns (inl ev) s'')
     ↔ length matches = 1%nat).
Proof.
  intros Hl Hnf Hamb Hget matches.
  rewrite (ResolveImageID_of_get _ _ _ _ _ _ Hl Hget).
  unfold originutil_ResolveImageID. fold matches.
  destruct matches as [|[tag ev] [|tev' rest]] eqn:Hm; simpl.
  - split_and!; try (intros; lia).
    + intros _. eexists. split; [reflexivity|]. simpl. by rewrite Hnf.
    + split; [by intros (? & ? & ?) | done].
  - assert ((tag, ev) ∈ matches) as Hin by (rewrite Hm; set_solver).
    apply list_elem_of_filter in Hin as [Hrec Hin].
    apply bool_decide_unpack in Hrec.
    split_and!; try (intros; lia).
    + intros _. by exists tag, ev.
    + split; [done | intros _; by eexists _, _].
  - split_and!; try (intros; lia).
    + intros _. eexists. split; [reflexivity|]. simpl. by rewrite Hamb.
    + split; [by intros (? & ? & ?) | done].
Qed.

(** ** Tags *)

(** The body of the loop of [Tags]. *)
Local Abbreviation tagsStep :=
  (λ (m : gmap string Digest) history,
     match Items history with
     | [] => m
     | item0 :: _ =>
         match digest_Parse (TagEvent_Image item0) with
         | None => m
         | Some dgst => <[Tag history := dgst]> m
         end
     end).

Lemma tagsStep_headDigest (m : gmap string Digest) history :
  tagsStep m history =
    match headDigest history with
    | Some dgst => <[Tag history := dgst]> m
    | None => m
    end.
Proof. unfold headDigest. by destruct (Items history). Qed.

Lemma Tags_of_get s l self stream s' :
  facades s !! l = Some self →
  get l s = Returns (inl stream) s' →
  Tags l s = Returns (inl (foldl tagsStep ∅ (Status_Tags (Status stream)))) s'.
Proof.
  intros Hl Hget. unfold Tags.
  rewrite (bind_Returns _ _ _ _ _ (deref_Some _ _ _ Hl)).
  by rewrite (bind_Returns _ _ _ _ _ Hget).
Qed.

Lemma Tags_loop_lookup (histories : list NamedTagEventList) (tag : string) :
  (foldl tagsStep ∅ histories !! tag = None ↔
     ∀ history, history ∈ histories → Tag history = tag → headDigest history = None)
  ∧ (∀ dgst, foldl tagsStep ∅ histories !! tag = Some dgst →
       ∃ history, history ∈ histories ∧ Tag history = tag
                  ∧ headDigest history = Some dgst).
Proof.
  induction histories as [|h hs [IHnone IHsome]] using rev_ind.
  - simpl. split; [|by intros ?; rewrite lookup_empty].
    rewrite lookup_empty. split; [intros _ ? Hin | done]. by apply elem_of_nil in Hin.
  - rewrite foldl_snoc, tagsStep_headDigest.
    setoid_rewrite elem_of_app. setoid_rewrite list_elem_of_singleton.
    destruct (headDigest h) as [d|] eqn:Hh.
    + destruct (decide (Tag h = tag)) as [<-|Hne].
      * rewrite lookup_insert_eq. split.
        -- split; [done|]. intros Hall. specialize (Hall h (or_intror eq_refl) eq_refl).
           congruence.
        -- intros dgst [= <-]. exists h. eauto.
      * rewrite lookup_insert_ne by done. split.
        -- rewrite IHnone. split.
           ++ intros Hall history [Hin| ->] Ht; [eauto | done].
           ++ intros Hall history Hin. eauto.
        -- intros dgst Hd. destruct (IHsome dgst Hd) as (history & ? & ? & ?).
           exists history. eauto.
    + split.
      * rewrite IHnone. split.
        -- intros Hall history [Hin| ->] Ht; [eauto | done].
        -- intros Hall history Hin. eauto.
      * intros dgst Hd. destruct (IHsome dgst Hd) as (history & ? & ? & ?).
        exists history. eauto.
Qed.

Lemma Tags_loop_NoDup (histories : list NamedTagEventList) :
  NoDup (Tag <$> histories) →
  ∀ history dgst, history ∈ histories → headDigest history = Some dgst →
    foldl tagsStep ∅ histories !! Tag history = Some dgst.
Proof.
  induction histories as [|h hs IH] using rev_ind; intros Hnd history dgst Hin Hd.
  - by apply elem_of_nil in Hin.
  - rewrite fmap_app in Hnd. apply NoDup_app in Hnd as (Hnd & Hfresh & _).
    rewrite foldl_snoc, tagsStep_headDigest.
    apply elem_of_app in Hin as [Hin|Hin].
    + assert (Tag h ≠ Tag history) as Hne.
      { intros Heq. apply (Hfresh (Tag history)).
        - apply list_elem_of_fmap. eauto.
        - rewrite <- Heq. set_solver. }
      destruct (headDigest h); [rewrite lookup_insert_ne by done|]; eauto.
    + apply list_elem_of_singleton in Hin as ->. rewrite Hd.
      apply lookup_insert_eq.
Qed.

(** C8.  On a resolved stream, [Tags] returns a map and no error.  A tag is
    absent from the map exactly when every history recorded under it is
    empty or starts with a digest string that does not parse; a tag that
    is present maps to the parsed head digest of a history recorded under
    it; and when the tag names of the status are distinct, every history
    with a parsed head digest has its tag mapped to that digest. *)
Theorem Tags_head_digests s l self stream s' :
  facades s !! l = Some self →
  get l s = Returns (inl stream) s' →
  ∃ m : gmap string Digest,
    Tags l s = Returns (inl m) s'
    ∧ (∀ tag, m !! tag = None ↔
         ∀ history, history ∈ Status_Tags (Status stream) → Tag history = tag →
           Items history = []
           ∨ ∃ item0 items, Items history = item0 :: items
                            ∧ digest_Parse (TagEvent_Image item0) = None)
    ∧ (∀ tag dgst, m !! tag = Some dgst →
         ∃ history item0 items,
           history ∈ Status_Tags (Status stream) ∧ Tag history = tag
           ∧ Items history = item0 :: items
           ∧ digest_Parse (TagEvent_Image item0) = Some dgst)
    ∧ (NoDup (Tag <$> Status_Tags (Status stream)) →
       ∀ history item0 items dgst,
         history ∈ Status_Tags (Status stream) →
         Items history = item0 :: items →
         digest_Parse (TagEvent_Image item0) = Some dgst →
         m !! Tag history = Some dgst).
Proof.
  intros Hl Hget. eexists. split; [by eapply Tags_of_get|].
  assert (∀ history, headDigest history = None ↔
            Items history = []
            ∨ ∃ item0 items, Items history = item0 :: items
                             ∧ digest_Parse (TagEvent_Image item0) = None) as Hnone.
  { intros history. unfold headDigest. destruct (Items history) as [|item0 items]; simpl.
    - naive_solver.
    - split; [intros ?; right; eauto | intros [?|(? & ? & [= <- <-] & ?)]; done]. }
  split_and!.
  - intros tag. rewrite (proj1 (Tags_loop_lookup _ tag)).
    by setoid_rewrite Hnone.
  - intros tag dgst Hm.
    apply (proj2 (Tags_loop_lookup _ tag)) in Hm as (history & Hin & Ht & Hd).
    unfold headDigest in Hd. destruct (Items history) as [|item0 items] eqn:Hitems;
      [done|]. simpl in Hd. by exists history, item0, items.
  - intros Hnd history item0 items dgst Hin Hitems Hparse.
    apply Tags_loop_NoDup; [done..|]. unfold headDigest. by rewrite Hitems.
Qed.

(** ** TagIsInsecure *)

Lemma length_zero_iff (str : string) : String.length str = 0%nat ↔ str = "".
Proof. by destruct str. Qed.

Lemma bool_decide_length_zero (str : string) :
  bool_decide (String.length str = 0%nat) = bool_decide (str = "").
Proof. by destruct str. Qed.

Lemma specTagInsecure_list_find (tags : list TagReference) (tag : string) :
  specTagInsecure tags tag =
    (λ it, Insecure (ImportPolicy it.2))
      <$> list_find (λ t, TagReference_Name t = tag) tags.
Proof.
  induction tags as [|t tags IH]; simpl; [done|].
  case_bool_decide; case_decide; try done.
  rewrite IH. by destruct (list_find _ tags).
Qed.

(** The scan for the latest event keeps an event that is at least as recent
    as the one it started from and as every event it has passed. *)
Lemma foldl_later (events : list (string * TagEvent)) (acc : option (string * TagEvent)) :
  match foldl later acc events with
  | None => acc = None ∧ events = []
  | Some best =>
      (acc = Some best ∨ best ∈ events)
      ∧ (∀ b, acc = Some b → Created b.2 ≤ Created best.2)
      ∧ (∀ tev, tev ∈ events → Created tev.2 ≤ Created best.2)
  end.
Proof.
  revert acc. induction events as [|x events IH]; intros acc; simpl.
  - destruct acc as [b|]; [|done]. split_and!; [by left | by intros ? [= ->] |].
    intros tev Hin. by apply elem_of_nil in Hin.
  - specialize (IH (later acc x)).
    destruct (foldl later (later acc x) events) as [best|];
      [|destruct IH as [Hlater _]; unfold later in Hlater; by repeat case_match].
    destruct IH as (Hbest & Hacc & Hall).
    assert (∃ y, later acc x = Some y ∧ (acc = Some y ∨ y = x)
                 ∧ Created x.2 ≤ Created y.2
                 ∧ ∀ b, acc = Some b → Created b.2 ≤ Created y.2) as (y & Hy & Hor & Hx & Hb).
    { unfold later. destruct acc as [b|].
      - destruct (Z.ltb_spec (Created b.2) (Created x.2)).
        + exists x. split_and!; eauto; [lia|]. intros ? [= <-]. lia.
        + exists b. split_and!; eauto. intros ? [= <-]. lia.
      - exists x. split_and!; eauto; [lia | done]. }
    specialize (Hacc y Hy). split_and!.
    + destruct Hbest as [Hbest| Hbest]; [|right; apply elem_of_cons; by right].
      rewrite Hy in Hbest. injection Hbest as Hbest.
      destruct Hor as [?|?]; [left | right; apply elem_of_cons; left]; congruence.
    + intros b Hbacc. specialize (Hb b Hbacc). lia.
    + intros tev [->|Hin]%elem_of_cons; [lia | eauto].
Qed.

Lemma LatestImageTagEvent_mostRecent (stream : ImageStream) (dgst : Digest) :
  mostRecentTag stream dgst (originutil_LatestImageTagEvent stream dgst).1.
Proof.
  unfold mostRecentTag, originutil_LatestImageTagEvent.
  pose proof (foldl_later (filter (λ tev, records dgst tev) (tagEvents stream)) None) as H.
  destruct (foldl later None _) as [[tag ev]|].
  - right. destruct H as ([?|Hin] & _ & Hall); [done|]. exists ev.
    apply list_elem_of_filter in Hin as [Hrec Hin]. apply bool_decide_unpack in Hrec.
    split_and!; [done..|]. intros tev Htev Himg. apply (Hall tev).
    apply list_elem_of_filter. split; [|done]. by apply bool_decide_pack.
  - left. destruct H as [_ Hnil]. split; [done|]. intros tev Htev Himg.
    assert (tev ∈ filter (λ tev, records dgst tev) (tagEvents stream)) as Hin.
    { apply list_elem_of_filter. split; [|done]. by apply bool_decide_pack. }
    rewrite Hnil in Hin. by apply elem_of_nil in Hin.
Qed.

(** C3.  On a resolved stream whose insecure annotation is set to "true",
    [TagIsInsecure] returns true whatever the tag and the digest.  Otherwise
    an empty tag argument is replaced by the tag of the most recent TagEvent
    recording the digest; the call then returns the import-policy insecure
    flag of the first entry of the tag spec that bears the resolved tag, and
    false when no tag is resolved or no entry of the tag spec bears it. *)
Theorem TagIsInsecure_policy s l self stream s' tag dgst :
  facades s !! l = Some self →
  get l s = Returns (inl stream) s' →
  (Annotations stream !! InsecureRepositoryAnnotation = Some "true" →
   TagIsInsecure l tag dgst s = Returns (true, None) s')
  ∧ (Annotations stream !! InsecureRepositoryAnnotation ≠ Some "true" →
     ∃ resolved,
       (tag ≠ "" → resolved = tag)
       ∧ (tag = "" → mostRecentTag stream dgst resolved)
       ∧ (∀ i t,
            resolved ≠ "" →
            Spec_Tags (Spec stream) !! i = Some t →
            TagReference_Name t = resolved →
            (∀ j t', (j < i)%nat → Spec_Tags (Spec stream) !! j = Some t' →
                     TagReference_Name t' ≠ resolved) →
            TagIsInsecure l tag dgst s = Returns (Insecure (ImportPolicy t), None) s')
       ∧ (resolved = ""
          ∨ (∀ t, t ∈ Spec_Tags (Spec stream) → TagReference_Name t ≠ resolved) →
          TagIsInsecure l tag dgst s = Returns (false, None) s')).
Proof.
  intros Hl Hget. unfold TagIsInsecure.
  rewrite (bind_Returns _ _ _ _ _ (deref_Some _ _ _ Hl)).
  rewrite (bind_Returns _ _ _ _ _ Hget).
  split.
  - by intros ->.
  - intros Hann.
    rewrite bool_decide_eq_false_2
      by (destruct (Annotations stream !! InsecureRepositoryAnnotation); naive_solver).
    set (resolved := if bool_decide (String.length tag = 0%nat)
                     then (originutil_LatestImageTagEvent stream dgst).1 else tag).
    exists resolved. cbv zeta. fold resolved. split_and!.
    + intros Htag. unfold resolved.
      by rewrite bool_decide_eq_false_2 by (by rewrite length_zero_iff).
    + intros ->. unfold resolved. simpl. apply LatestImageTagEvent_mostRecent.
    + intros i t Hres Hi Hname Hfirst.
      rewrite bool_decide_eq_false_2 by (by rewrite length_zero_iff). simpl.
      rewrite specTagInsecure_list_find.
      assert (list_find (λ t, TagReference_Name t = resolved) (Spec_Tags (Spec stream))
              = Some (i, t)) as ->; [|done].
      apply list_find_Some. eauto.
    + intros [Hres|Hnone].
      * by rewrite bool_decide_eq_true_2 by (by rewrite length_zero_iff).
      * destruct (bool_decide (String.length resolved = 0%nat)); simpl; [done|].
        rewrite specTagInsecure_list_find.
        assert (list_find (λ t, TagReference_Name t = resolved) (Spec_Tags (Spec stream))
                = None) as ->; [|done].
        apply list_find_None, Forall_forall. eauto.
Qed.

(** ** External references *)

Lemma existsb_true {A} (f : A → bool) (xs : list A) :
  existsb f xs = true ↔ ∃ x, x ∈ xs ∧ f x = true.
Proof.
  rewrite existsb_exists. by setoid_rewrite list_elem_of_In.
Qed.

Lemma existsb_false {A} (f : A → bool) (xs : list A) :
  existsb f xs = false ↔ ∀ x, x ∈ xs → f x = false.
Proof.
  rewrite <- not_true_iff_false, existsb_true. split.
  - intros Hno x Hin. apply not_true_iff_false. eauto.
  - intros Hall (x & Hin & Hx). specialize (Hall x Hin). congruence.
Qed.

Lemma elem_of_getLocalRegistryNames (stream : ImageStream) (registry : string) :
  registry ∈ getLocalRegistryNames stream ↔
  registry ≠ ""
  ∧ (registry = Registry (ParseDockerImageReference
                            (DockerImageRepository (Status stream))).1
     ∨ PublicDockerImageRepository (Status stream) ≠ ""
       ∧ registry = Registry (ParseDockerImageReference
                                (PublicDockerImageRepository (Status stream))).1).
Proof.
  unfold getLocalRegistryNames.
  destruct (ParseDockerImageReference (DockerImageRepository (Status stream)))
    as [local err1].
  destruct (ParseDockerImageReference (PublicDockerImageRepository (Status stream)))
    as [public err2].
  simpl. rewrite !bool_decide_length_zero.
  repeat case_bool_decide; simpl;
    rewrite ?elem_of_cons, ?elem_of_nil;
    (split; [intros Hin | intros [Hne Hin]]);
    try (split; [|tauto]); intuition congruence.
Qed.

Lemma elem_of_localPrefixes (stream : ImageStream) (p : string) :
  p ∈ localPrefixes stream ↔
  ∃ registry, registry ∈ getLocalRegistryNames stream
              ∧ p = registry +:+ "/" +:+ Namespace stream +:+ "/" +:+ Name stream +:+ "@".
Proof.
  unfold localPrefixes. rewrite list_elem_of_fmap.
  split; intros (registry & ? & ?); eauto.
Qed.

Lemma item_local_true (stream : ImageStream) (item : TagEvent) :
  existsb (λ p, HasPrefix (TagEvent_DockerImageReference item) p) (localPrefixes stream)
    = true ↔
  ∃ registry rest,
    registry ∈ getLocalRegistryNames stream
    ∧ TagEvent_DockerImageReference item =
        (registry +:+ "/" +:+ Namespace stream +:+ "/" +:+ Name stream +:+ "@") +:+ rest.
Proof.
  rewrite existsb_true. unfold HasPrefix. setoid_rewrite prefix_spec.
  setoid_rewrite elem_of_localPrefixes. split.
  - intros (p & (registry & Hr & ->) & rest & Heq). eauto.
  - intros (registry & rest & Hr & Heq).
    eexists. split; [eexists; split; [done | reflexivity] | eauto].
Qed.

(** C6.  The test for external references is false exactly when the
    reference string of every item of the tag status starts with one of the
    local prefixes, host/namespace/name@ for a local registry hostname of the
    stream, and it is true exactly when some item starts with none of them.
    On a stream without external references [RemoteRepositoriesForBlob]
    returns empty results and no error in the state the stream getter left:
    no request for the blob index is sent and the cell of the blob index is
    as it was. *)
Theorem RemoteRepositoriesForBlob_local_only s l self stream s' dgst :
  facades s !! l = Some self →
  get l s = Returns (inl stream) s' →
  (imageStreamHasExternalReferences stream = false ↔
     ∀ history item,
       history ∈ Status_Tags (Status stream) → item ∈ Items history →
       ∃ registry rest,
         registry ∈ getLocalRegistryNames stream
         ∧ TagEvent_DockerImageReference item =
             (registry +:+ "/" +:+ Namespace stream +:+ "/" +:+ Name stream +:+ "@")
             +:+ rest)
  ∧ (imageStreamHasExternalReferences stream = true ↔
     ∃ history item,
       history ∈ Status_Tags (Status stream) ∧ item ∈ Items history
       ∧ ∀ registry rest,
           registry ∈ getLocalRegistryNames stream →
           TagEvent_DockerImageReference item ≠
             (registry +:+ "/" +:+ Namespace stream +:+ "/" +:+ Name stream +:+ "@")
             +:+ rest)
  ∧ (imageStreamHasExternalReferences stream = false →
     RemoteRepositoriesForBlob l dgst s = Returns ([], [], None) s'
     ∧ (∀ c ns nm, GetImageStreamLayersRequest c ns nm ∈ trace s' →
                   GetImageStreamLayersRequest c ns nm ∈ trace s)
     ∧ ∃ self', facades s' !! l = Some self'
                ∧ cachedImageStreamLayers (imageStreamGetter self')
                  = cachedImageStreamLayers (imageStreamGetter self)).
Proof.
  intros Hl Hget. split_and!.
  - unfold imageStreamHasExternalReferences. rewrite existsb_false.
    setoid_rewrite existsb_false. setoid_rewrite negb_false_iff.
    split; intros Hall history item Hh Hitem; apply item_local_true; eauto.
  - unfold imageStreamHasExternalReferences. rewrite existsb_true.
    setoid_rewrite existsb_true. setoid_rewrite negb_true_iff.
    setoid_rewrite <- not_true_iff_false. setoid_rewrite item_local_true.
    split.
    + intros (history & Hh & item & Hitem & Hno). exists history, item.
      split_and!; [done..|]. intros registry rest Hr Heq. apply Hno. eauto.
    + intros (history & item & Hh & Hitem & Hno). exists history. split; [done|].
      exists item. split; [done|]. intros (registry & rest & Hr & Heq).
      by eapply Hno.
  - intros Hlocal. split_and!.
    + unfold RemoteRepositoriesForBlob.
      rewrite (bind_Returns _ _ _ _ _ (deref_Some _ _ _ Hl)).
      rewrite (bind_Returns _ _ _ _ _ Hget). by rewrite Hlocal.
    + intros c ns nm Hin.
      destruct (get_Returns s l self Hl) as (r & s'' & Hget' & _ & _ & Htrace).
      rewrite Hget in Hget'. injection Hget' as <- <-.
      destruct Htrace as [[Ht _]|(c' & ns' & nm' & Ht)]; rewrite Ht in Hin; [done|].
      apply elem_of_app in Hin as [Hin|Hin]; [done|].
      by apply list_elem_of_singleton in Hin.
    + eexists. split; [by eapply get_facade|]. done.
Qed.

(** ** GetImageOfImageStream *)

(** [Get] of the image getter always returns.  It leaves the outcome in the
    cache under the digest and keeps every image record of the heap. *)
Lemma imageClient_Get_Returns s l self dgst :
  facades s !! l = Some self →
  ∃ r s',
    imageClient_Get l dgst s = Returns r s'
    ∧ facades s' =
        <[l := set_imageClient self
                 {| getter_client := getter_client (imageClient self);
                    cache := <[dgst := r]> (cache (imageClient self)) |}]> (facades s)
    ∧ (∀ k v, images s !! k = Some v → images s' !! k = Some v).
Proof.
  intros Hl. unfold imageClient_Get.
  rewrite (bind_Returns _ _ _ _ _ (deref_Some _ _ _ Hl)).
  destruct (cache (imageClient self) !! dgst) as [r|] eqn:Hc.
  - exists r, s. split_and!; [done| |done].
    rewrite insert_id by done. symmetry. apply list_insert_id.
    etrans; [exact Hl|]. f_equal. by destruct self as [? ? ? [] ?].
  - unfold bind, request. destruct (Images_Get _ _ (service s)) as [[img|err] σ]; simpl.
    + eexists _, _. split_and!; [reflexivity | done |]. simpl.
      intros k v Hk. by apply lookup_app_l_Some.
    + eexists _, _. split_and!; [reflexivity | done | done].
Qed.

Lemma getImage_of_Get s l self dgst q s' :
  facades s !! l = Some self →
  imageClient_Get l dgst s = Returns (inl q) s' →
  getImage l dgst s = Returns (inl q) s'.
Proof.
  intros Hl Hget. unfold getImage.
  rewrite (bind_Returns _ _ _ _ _ (deref_Some _ _ _ Hl)).
  by rewrite (bind_Returns _ _ _ _ _ Hget).
Qed.

(** C4.  When the stream resolves, one TagEvent is found for the digest and
    the image getter yields the image record, [GetImageOfImageStream] returns
    a new record: a copy of the fetched one whose reference string is the
    TagEvent's.  The fetched record, and every record that was in the heap,
    is as it was, and a further fetch of the digest yields the fetched record
    with its original reference string. *)
Theorem GetImageOfImageStream_copies s l self dgst stream s1 tagEvent q s2 img :
  facades s !! l = Some self →
  get l s = Returns (inl stream) s1 →
  originutil_ResolveImageID stream dgst = inl tagEvent →
  imageClient_Get l dgst s1 = Returns (inl q) s2 →
  images s2 !! q = Some img →
  ∃ p s3,
    GetImageOfImageStream l dgst s = Returns (inl p) s3
    ∧ images s3 !! p =
        Some (Image_set_DockerImageReference img (TagEvent_DockerImageReference tagEvent))
    ∧ (∀ copy, images s3 !! p = Some copy →
         Image_DockerImageReference copy = TagEvent_DockerImageReference tagEvent)
    ∧ p ≠ q
    ∧ images s3 !! q = Some img
    ∧ (∀ k v, images s !! k = Some v → images s3 !! k = Some v)
    ∧ getImage l dgst s3 = Returns (inl q) s3.
Proof.
  intros Hl Hget Hres Hfetch Himg.
  pose proof (get_facade _ _ _ _ _ Hl Hget) as Hl1.
  destruct (get_Returns s l self Hl) as (r & s1' & Hget' & _ & Himages1 & _).
  rewrite Hget in Hget'. injection Hget' as <- <-.
  destruct (imageClient_Get_Returns s1 l _ dgst Hl1) as (r & s2' & Hfetch' & Hf2 & Himages2).
  rewrite Hfetch in Hfetch'. injection Hfetch' as <- <-.
  assert (q < length (images s2))%nat as Hq by eauto using lookup_lt_Some.
  eexists (length (images s2)), _. split.
  { unfold GetImageOfImageStream.
    rewrite (bind_Returns _ _ _ (inl (q, tagEvent)) s2).
    - by rewrite (bind_Returns _ _ _ _ _ (deref_image_Some _ _ _ Himg)).
    - unfold getStoredImageOfImageStream.
      rewrite (bind_Returns _ _ _ (inl tagEvent) s1)
        by (by rewrite (ResolveImageID_of_get _ _ _ _ _ _ Hl Hget), Hres).
      by rewrite (bind_Returns _ _ _ _ _ (getImage_of_Get _ _ _ _ _ _ Hl1 Hfetch)). }
  simpl.
  assert ((images s2 ++
           [Image_set_DockerImageReference img (TagEvent_DockerImageReference tagEvent)])%list
          !! length (images s2)
          = Some (Image_set_DockerImageReference img
                    (TagEvent_DockerImageReference tagEvent))) as Hp.
  { by rewrite lookup_app_r, Nat.sub_diag. }
  split_and!.
  - done.
  - intros copy Hcopy. by pose proof (eq_trans (eq_sym Hcopy) Hp) as [= ->].
  - lia.
  - by apply lookup_app_l_Some.
  - intros k v Hk. apply lookup_app_l_Some, Himages2. by rewrite Himages1.
  - assert (l < length (facades s1))%nat as Hlt by eauto using lookup_lt_Some.
    match goal with |- getImage _ _ ?st = _ => set (s3 := st) end.
    assert (facades s3 !! l = facades s2 !! l) as Hl3 by done.
    rewrite Hf2, list_lookup_insert_eq in Hl3 by done.
    apply (getImage_of_Get _ _ _ _ _ _ Hl3). unfold imageClient_Get.
    rewrite (bind_Returns _ _ _ _ _ (deref_Some _ _ _ Hl3)). simpl.
    by rewrite lookup_insert_eq.
Qed.

(** ** CreateImageStreamMapping *)

Lemma bind_request {A B} (ev : event) (call : Σ → A * Σ) (k : A → M Σ B) s a σ :
  call (service s) = (a, σ) →
  bind (request ev call) k s =
    k a {| service := σ; trace := (trace s ++ [ev])%list;
           facades := facades s; images := images s |}.
Proof. unfold bind, request. by intros ->. Qed.

Lemma app_cons_neq {A} (xs rest : list A) (x : A) : xs ≠ (xs ++ x :: rest)%list.
Proof.
  intros Heq. apply (f_equal length) in Heq. rewrite length_app in Heq. simpl in Heq. lia.
Qed.


Lemma bind_request_mk {A B} (ev : event) (call : Σ → A * Σ) (k : A → M Σ B)
    σ t fs imgs a σ' :
  call σ = (a, σ') →
  bind (request ev call) k (mkState σ t fs imgs) = k a (mkState σ' (t ++ [ev])%list fs imgs).
Proof. unfold bind, request. simpl. by intros ->. Qed.

Lemma bind_ret {A B} (a : A) (k : A → M Σ B) s : bind (ret a) k s = k a s.
Proof. reflexivity. Qed.

Lemma bind_deref_opt_Some {A B} (a : A) (k : A → M Σ B) s :
  bind (deref_opt (Some a)) k s = k a s.
Proof. reflexivity. Qed.

Lemma bind_bind {A B C} (m : M Σ A) (f : A → M Σ B) (k : B → M Σ C) s :
  bind (bind m f) k s = bind m (λ a, bind (f a) k) s.
Proof. unfold bind. by destruct (m s). Qed.

Lemma cacheImageStream_Returns s l self stream :
  facades s !! l = Some self →
  cacheImageStream l stream s =
    Returns tt
      {| service := service s;
         trace := (trace s ++ [CacheImageStream l stream])%list;
         facades := <[l := set_imageStreamGetter self
                              (set_cachedImageStream (imageStreamGetter self)
                                 (Fetched (inl stream)))]> (facades s);
         images := images s |}.
Proof.
  intros Hl. unfold cacheImageStream.
  by rewrite (bind_Returns _ _ _ _ _ (deref_Some _ _ _ Hl)).
Qed.

(** The run up to the reply to the first mapping create. *)
Ltac first_attempt Hl Himg Hfirst :=
  unfold CreateImageStreamMapping;
  rewrite (bind_Returns _ _ _ _ _ (deref_Some _ _ _ Hl));
  rewrite (bind_Returns _ _ _ _ _ (deref_image_Some _ _ _ Himg));
  cbv zeta; rewrite (bind_request _ _ _ _ _ _ Hfirst).

(** The run after a first failure that tells that the stream is missing, by
    the replies to the stream create and to the second mapping create. *)
Lemma CreateImageStreamMapping_provisions
    s l self userClient tag image img e σ1 err2 σ2 err3 σ3 :
  facades s !! l = Some self →
  images s !! image = Some img →
  let ism := {| ISM_Namespace := namespace self; ISM_Name := name self;
                ISM_Image := img; ISM_Tag := tag |} in
  let stream := ImageStream_set_Name ImageStream_zero (name self) in
  let mappingRequest :=
    CreateImageStreamMappingRequest (registryOSClient self) (namespace self) ism in
  let streamRequest := CreateImageStreamRequest userClient (namespace self) stream in
  ImageStreamMappings_Create (registryOSClient self) (namespace self) ism (service s)
    = (Some e, σ1) →
  IsErrorQuotaExceeded e = false →
  streamMissing (name self) e →
  ImageStreams_Create userClient (namespace self) stream σ1 = (err2, σ2) →
  ImageStreamMappings_Create (registryOSClient self) (namespace self) ism σ2
    = (err3, σ3) →
  let s2 := {| service := σ2;
               trace := ((trace s ++ [mappingRequest]) ++ [streamRequest])%list;
               facades := facades s; images := images s |} in
  let s4 := {| service := σ3;
               trace := ((((trace s ++ [mappingRequest]) ++ [streamRequest])
                          ++ [CacheImageStream l stream]) ++ [mappingRequest])%list;
               facades :=
                 <[l := set_imageStreamGetter self
                          (set_cachedImageStream (imageStreamGetter self)
                             (Fetched (inl stream)))]> (facades s);
               images := images s |} in
  let secondTime :=
    match err3 with
    | None => Returns None s4
    | Some e3 =>
        Returns
          (Some (rerrors.NewError
                   (if IsErrorQuotaExceeded e3 then ErrImageStreamForbiddenCode
                    else ErrImageStreamUnknownErrorCode)
                   (if IsErrorQuotaExceeded e3
                    then "CreateImageStreamMapping: quota exceeded during creation of "
                         +:+ Reference self +:+ " ImageStreamMapping second time"
                    else "CreateImageStreamMapping: error creating "
                         +:+ Reference self +:+ " ImageStreamMapping second time")
                   err3)) s4
    end in
  CreateImageStreamMapping l userClient tag image s =
    if on_error IsAlreadyExists err2 || on_error IsConflict err2 then secondTime
    else if on_error IsForbidden err2 || on_error IsUnauthorized err2
            || on_error IsErrorQuotaExceeded err2
    then Returns
           (Some (rerrors.NewError ErrImageStreamForbiddenCode
                    ("CreateImageStreamMapping: denied creating ImageStream "
                     +:+ Reference self) err2)) s2
    else if bool_decide (is_Some err2)
    then Returns
           (Some (rerrors.NewError ErrImageStreamUnknownErrorCode
                    ("CreateImageStreamMapping: error auto provisioning ImageStream "
                     +:+ Reference self) err2)) s2
    else secondTime.
Proof.
  intros Hl Himg ism stream mappingRequest streamRequest Hfirst Hquota
    (status & details & -> & Hdetails & Hkind & Hcode & Hname) Hsecond Hthird s2 s4
    secondTime.
  first_attempt Hl Himg Hfirst. rewrite Hquota, Hdetails.
  assert (bool_decide (ToLower (metav1.Kind details) = "namespaces") = false) as Hlower.
  { rewrite Hkind. apply bool_decide_eq_false_2, ToLower_imagestreammappings. }
  assert (∀ (k : bool → M Σ (option rerrors.Error)) st,
            bind (andM (IsNotFound (StatusError status))
                    (bind (deref_opt (Some details))
                       (λ details,
                          ret (bool_decide (ToLower (metav1.Kind details) = "namespaces")))))
              k st = k false st) as ->.
  { intros k st. unfold andM. destruct (IsNotFound _); [|done].
    by rewrite bind_bind, bind_deref_opt_Some, bind_ret, Hlower. }
  cbv beta iota zeta.
  rewrite Hkind, Hcode, !bool_decide_eq_true_2 by done. unfold orM. cbn [negb].
  rewrite bind_bind, bind_deref_opt_Some, bind_ret, Hname, bool_decide_eq_true_2 by done.
  cbn [negb].
  rewrite (bind_request_mk _ _ _ _ _ _ _ _ _ Hsecond).
  fold stream ism mappingRequest streamRequest s2.
  assert (bind (cacheImageStream l stream)
            (λ _, bind (request mappingRequest
                          (ImageStreamMappings_Create (registryOSClient self)
                             (namespace self) ism))
                    (λ err,
                       match err with
                       | None => ret None
                       | Some e =>
                           if IsErrorQuotaExceeded e
                           then ret (Some (rerrors.NewError ErrImageStreamForbiddenCode
                                  ("CreateImageStreamMapping: quota exceeded during creation of "
                                   +:+ Reference self +:+ " ImageStreamMapping second time")
                                  err))
                           else ret (Some (rerrors.NewError ErrImageStreamUnknownErrorCode
                                  ("CreateImageStreamMapping: error creating "
                                   +:+ Reference self +:+ " ImageStreamMapping second time")
                                  err))
                       end)) s2 = secondTime) as Hsecondtime.
  { rewrite (bind_Returns _ _ _ _ _ (cacheImageStream_Returns s2 l self stream Hl)).
    cbn [service trace facades images s2].
    rewrite (bind_request_mk _ _ _ _ _ _ _ _ _ Hthird). unfold secondTime. fold s4.
    destruct err3 as [e3|]; [|done]. by destruct (IsErrorQuotaExceeded e3). }
  destruct (on_error IsAlreadyExists err2 || on_error IsConflict err2); [done|].
  destruct (on_error IsForbidden err2 || on_error IsUnauthorized err2
            || on_error IsErrorQuotaExceeded err2); [done|].
  by destruct (bool_decide (is_Some err2)).
Qed.


Lemma notFoundWithoutDetails_not_namespaceMissing e :
  notFoundWithoutDetails e → ¬ namespaceMissing e.
Proof.
  intros (status & -> & _ & Hnone) (status' & details & [= <-] & _ & Hsome & _).
  congruence.
Qed.

Lemma notFoundWithoutDetails_not_streamMissing nm e :
  notFoundWithoutDetails e → ¬ streamMissing nm e.
Proof.
  intros (status & -> & _ & Hnone) (status' & details & [= <-] & Hsome & _).
  congruence.
Qed.

Lemma namespaceMissing_not_streamMissing nm e :
  namespaceMissing e → ¬ streamMissing nm e.
Proof.
  intros (status & details & -> & _ & Hsome & Hlower)
         (status' & details' & [= <-] & Hsome' & Hkind & _).
  rewrite Hsome in Hsome'. injection Hsome' as <-. rewrite Hkind in Hlower.
  by apply ToLower_imagestreammappings.
Qed.

(** The five ways in which the run goes on after a failed first mapping
    create. *)
Lemma CreateImageStreamMapping_classifies s l self userClient tag image img e σ1 :
  facades s !! l = Some self →
  images s !! image = Some img →
  let ism := {| ISM_Namespace := namespace self; ISM_Name := name self;
                ISM_Image := img; ISM_Tag := tag |} in
  let s1 := {| service := σ1;
               trace := (trace s ++
                         [CreateImageStreamMappingRequest (registryOSClient self)
                            (namespace self) ism])%list;
               facades := facades s; images := images s |} in
  ImageStreamMappings_Create (registryOSClient self) (namespace self) ism (service s)
    = (Some e, σ1) →
  let fails code :=
    ∃ r, CreateImageStreamMapping l userClient tag image s = Returns (Some r) s1
         ∧ rerrors.Code r = code ∧ rerrors.Err r = Some e in
  (IsErrorQuotaExceeded e = true ∧ fails ErrImageStreamForbiddenCode)
  ∨ (IsErrorQuotaExceeded e = false ∧ notFoundWithoutDetails e
     ∧ CreateImageStreamMapping l userClient tag image s = Panics s1)
  ∨ (IsErrorQuotaExceeded e = false ∧ namespaceMissing e
     ∧ fails ErrImageStreamForbiddenCode)
  ∨ (IsErrorQuotaExceeded e = false ∧ streamMissing (name self) e)
  ∨ (IsErrorQuotaExceeded e = false ∧ ¬ notFoundWithoutDetails e
     ∧ ¬ namespaceMissing e ∧ ¬ streamMissing (name self) e
     ∧ fails ErrImageStreamUnknownErrorCode).
Proof.
  intros Hl Himg ism s1 Hfirst fails. unfold fails.
  first_attempt Hl Himg Hfirst. fold ism s1.
  destruct (IsErrorQuotaExceeded e) eqn:Hquota.
  { left. split; [done|]. by eexists. }
  right.
  destruct e as [status|text|code message err].
  2,3: do 3 right; split; [done|]; split_and!;
         [by intros (? & ? & _) | by intros (? & ? & ? & _)
         | by intros (? & ? & ? & _) | by eexists].
  unfold andM.
  destruct (IsNotFound (StatusError status)) eqn:Hnf,
           (metav1.Details status) as [details|] eqn:Hdetails.
  - rewrite bind_bind, bind_deref_opt_Some, bind_ret.
    case_bool_decide as Hlower.
    + right. left. split; [done|]. split; [by exists status, details | by eexists].
    + do 2 right. cbv zeta. unfold orM.
      destruct (decide (metav1.Kind details = "imagestreammappings")) as [Hkind|Hkind];
        [rewrite (bool_decide_eq_true_2 _ Hkind)
        |rewrite (bool_decide_eq_false_2 _ Hkind)]; cbn [negb].
      2:{ right. split; [done|]. split_and!; [| | |by eexists].
          - intros (? & [= <-] & _ & ?). congruence.
          - intros (? & ? & [= <-] & _ & ? & ?). congruence.
          - intros (? & ? & [= <-] & ? & ? & _). congruence. }
      destruct (decide (metav1.Code status = http_StatusNotFound)) as [Hcode|Hcode];
        [rewrite (bool_decide_eq_true_2 _ Hcode)
        |rewrite (bool_decide_eq_false_2 _ Hcode)]; cbn [negb].
      2:{ right. split; [done|]. split_and!; [| | |by eexists].
          - intros (? & [= <-] & _ & ?). congruence.
          - intros (? & ? & [= <-] & _ & ? & ?). congruence.
          - intros (? & ? & [= <-] & ? & ? & ? & _). done. }
      rewrite bind_bind, bind_deref_opt_Some, bind_ret.
      destruct (decide (metav1.Name details = name self)) as [Hname|Hname];
        [rewrite (bool_decide_eq_true_2 _ Hname)
        |rewrite (bool_decide_eq_false_2 _ Hname)]; cbn [negb].
      * left. split; [done|]. by exists status, details.
      * right. split; [done|]. split_and!; [| | |by eexists].
        -- intros (? & [= <-] & _ & ?). congruence.
        -- intros (? & ? & [= <-] & _ & ? & ?). congruence.
        -- intros (? & ? & [= <-] & ? & ? & ? & ?). congruence.
  - left. split; [done|]. split; [by exists status|]. done.
  - do 2 right. rewrite bind_ret. cbv zeta. unfold orM.
    destruct (decide (metav1.Kind details = "imagestreammappings")) as [Hkind|Hkind];
      [rewrite (bool_decide_eq_true_2 _ Hkind)
      |rewrite (bool_decide_eq_false_2 _ Hkind)]; cbn [negb].
    2:{ right. split; [done|]. split_and!; [| | |by eexists].
        - intros (? & [= <-] & ? & _). congruence.
        - intros (? & ? & [= <-] & ? & _). congruence.
        - intros (? & ? & [= <-] & ? & ? & _). congruence. }
    destruct (decide (metav1.Code status = http_StatusNotFound)) as [Hcode|Hcode];
      [rewrite (bool_decide_eq_true_2 _ Hcode)
      |rewrite (bool_decide_eq_false_2 _ Hcode)]; cbn [negb].
    2:{ right. split; [done|]. split_and!; [| | |by eexists].
        - intros (? & [= <-] & ? & _). congruence.
        - intros (? & ? & [= <-] & ? & _). congruence.
        - intros (? & ? & [= <-] & ? & ? & ? & _). done. }
    rewrite bind_bind, bind_deref_opt_Some, bind_ret.
    destruct (decide (metav1.Name details = name self)) as [Hname|Hname];
      [rewrite (bool_decide_eq_true_2 _ Hname)
      |rewrite (bool_decide_eq_false_2 _ Hname)]; cbn [negb].
    + left. split; [done|]. by exists status, details.
    + right. split; [done|]. split_and!; [| | |by eexists].
      * intros (? & [= <-] & ? & _). congruence.
      * intros (? & ? & [= <-] & ? & _). congruence.
      * intros (? & ? & [= <-] & ? & ? & ? & ?). congruence.
  - do 3 right. rewrite bind_ret. cbv zeta. unfold orM. cbn [negb].
    rewrite bind_ret. split; [done|]. split_and!; [| | |by eexists].
    + intros (? & [= <-] & ? & _). congruence.
    + intros (? & ? & [= <-] & ? & _). congruence.
    + intros (? & ? & [= <-] & ? & _). congruence.
Qed.


(** C1, as amended.  After a failed first mapping create: a quota-exceeded
    error yields Forbidden, and a structured not-found error whose
    owning-resource kind reads "namespaces" in whatever case yields
    Forbidden, both without any further request; the stream is provisioned
    exactly when the error is not a quota error and has owning-resource kind
    "imagestreammappings", status code 404 and the stream's name as detail
    name; every other failure, unless it is a not-found error without
    details, yields Unknown without any further request. *)
Theorem CreateImageStreamMapping_first_failure
    s l self userClient tag image img e σ1 :
  facades s !! l = Some self →
  images s !! image = Some img →
  let ism := {| ISM_Namespace := namespace self; ISM_Name := name self;
                ISM_Image := img; ISM_Tag := tag |} in
  let stream := ImageStream_set_Name ImageStream_zero (name self) in
  let s1 := {| service := σ1;
               trace := (trace s ++
                         [CreateImageStreamMappingRequest (registryOSClient self)
                            (namespace self) ism])%list;
               facades := facades s; images := images s |} in
  ImageStreamMappings_Create (registryOSClient self) (namespace self) ism (service s)
    = (Some e, σ1) →
  let fails code :=
    ∃ r, CreateImageStreamMapping l userClient tag image s = Returns (Some r) s1
         ∧ rerrors.Code r = code ∧ rerrors.Err r = Some e in
  (IsErrorQuotaExceeded e = true → fails ErrImageStreamForbiddenCode)
  ∧ (IsErrorQuotaExceeded e = false → namespaceMissing e →
     fails ErrImageStreamForbiddenCode)
  ∧ ((∃ rest,
        trace (final (CreateImageStreamMapping l userClient tag image s)) =
          (trace s1 ++ CreateImageStreamRequest userClient (namespace self) stream
                       :: rest)%list)
     ↔ IsErrorQuotaExceeded e = false ∧ streamMissing (name self) e)
  ∧ (IsErrorQuotaExceeded e = false → ¬ namespaceMissing e →
     ¬ streamMissing (name self) e → ¬ notFoundWithoutDetails e →
     fails ErrImageStreamUnknownErrorCode).
Proof.
  intros Hl Himg ism stream s1 Hfirst fails.
  pose proof (CreateImageStreamMapping_classifies s l self userClient tag image img e σ1
                Hl Himg Hfirst) as Hcases.
  cbv zeta in Hcases. fold ism s1 in Hcases. unfold fails. split_and!.
  - intros Hquota.
    destruct Hcases as [[_ ?]|[[? _]|[[? _]|[[? _]|[? _]]]]]; [done|congruence..].
  - intros Hquota Hns.
    destruct Hcases as [[? _]|[(_ & Hcrash & _)|[(_ & _ & ?)|[[_ Hmiss]|(_ & _ & ? & _)]]]];
      [congruence| |done| |done].
    + by apply notFoundWithoutDetails_not_namespaceMissing in Hcrash.
    + by apply (namespaceMissing_not_streamMissing (name self)) in Hns.
  - split.
    + intros [rest Htrace].
      destruct Hcases as [[_ Hr]|[(_ & _ & Hr)|[(_ & _ & Hr)|[?|(_ & _ & _ & _ & Hr)]]]];
        [| | |done|];
        try destruct Hr as (r & Hr & _); rewrite Hr in Htrace; simpl in Htrace;
        by apply app_cons_neq in Htrace.
    + intros [Hquota Hmiss].
      destruct (ImageStreams_Create userClient (namespace self) stream σ1)
        as [err2 σ2] eqn:Hsecond.
      destruct (ImageStreamMappings_Create (registryOSClient self) (namespace self) ism σ2)
        as [err3 σ3] eqn:Hthird.
      rewrite (CreateImageStreamMapping_provisions s l self userClient tag image img e σ1
                 err2 σ2 err3 σ3 Hl Himg Hfirst Hquota Hmiss Hsecond Hthird).
      cbv zeta. fold ism stream.
      destruct (on_error IsAlreadyExists err2 || on_error IsConflict err2);
        [|destruct (on_error IsForbidden err2 || on_error IsUnauthorized err2
                    || on_error IsErrorQuotaExceeded err2);
          [|destruct (bool_decide (is_Some err2))]];
        try destruct err3; eexists; unfold s1; simpl; rewrite <- ?app_assoc; simpl;
        reflexivity.
  - intros Hquota Hns Hmiss Hcrash.
    destruct Hcases as [[? _]|[(_ & ? & _)|[(_ & ? & _)|[[_ ?]|(_ & _ & _ & _ & ?)]]]];
      [congruence|done..].
Qed.

(** C9.  A first mapping create that fails with a structured not-found error
    without details, and not for an exceeded quota, makes
    [CreateImageStreamMapping] panic on the read of the kind of the details:
    it returns no error code. *)
Theorem CreateImageStreamMapping_panics_without_details
    s l self userClient tag image img e σ1 :
  facades s !! l = Some self →
  images s !! image = Some img →
  let ism := {| ISM_Namespace := namespace self; ISM_Name := name self;
                ISM_Image := img; ISM_Tag := tag |} in
  ImageStreamMappings_Create (registryOSClient self) (namespace self) ism (service s)
    = (Some e, σ1) →
  IsErrorQuotaExceeded e = false →
  notFoundWithoutDetails e →
  CreateImageStreamMapping l userClient tag image s =
    Panics {| service := σ1;
              trace := (trace s ++
                        [CreateImageStreamMappingRequest (registryOSClient self)
                           (namespace self) ism])%list;
              facades := facades s; images := images s |}.
Proof.
  intros Hl Himg ism Hfirst Hquota Hcrash.
  destruct (CreateImageStreamMapping_classifies s l self userClient tag image img e σ1
              Hl Himg Hfirst)
    as [[? _]|[(_ & _ & ?)|[(_ & Hns & _)|[[_ Hmiss]|(_ & ? & _)]]]];
    [congruence|done| | |done].
  - by apply notFoundWithoutDetails_not_namespaceMissing in Hcrash.
  - by apply (notFoundWithoutDetails_not_streamMissing (name self)) in Hcrash.
Qed.


(** C2.  After a first failure that tells that the stream is missing, the
    stream is created once, through the user client.  If that creation
    succeeds, or fails as already existing or as a conflict, the stream is
    put into the cell of the stream getter, so that [get] yields it without
    a request, and then the mapping create is sent once more; the outcome of
    this second create is final: no error, Forbidden for an exceeded quota,
    Unknown otherwise.  If the creation of the stream fails in another way
    nothing more is sent, and the run fails with Forbidden when the creation
    was forbidden, unauthorized or over quota, and with Unknown otherwise. *)
Theorem CreateImageStreamMapping_provisions_once
    s l self userClient tag image img e σ1 err2 σ2 err3 σ3 :
  facades s !! l = Some self →
  images s !! image = Some img →
  let ism := {| ISM_Namespace := namespace self; ISM_Name := name self;
                ISM_Image := img; ISM_Tag := tag |} in
  let stream := ImageStream_set_Name ImageStream_zero (name self) in
  let mappingRequest :=
    CreateImageStreamMappingRequest (registryOSClient self) (namespace self) ism in
  let streamRequest := CreateImageStreamRequest userClient (namespace self) stream in
  ImageStreamMappings_Create (registryOSClient self) (namespace self) ism (service s)
    = (Some e, σ1) →
  IsErrorQuotaExceeded e = false →
  streamMissing (name self) e →
  ImageStreams_Create userClient (namespace self) stream σ1 = (err2, σ2) →
  ImageStreamMappings_Create (registryOSClient self) (namespace self) ism σ2
    = (err3, σ3) →
  let proceeds :=
    on_error IsAlreadyExists err2 = true ∨ on_error IsConflict err2 = true
    ∨ err2 = None in
  let denied :=
    on_error IsForbidden err2 = true ∨ on_error IsUnauthorized err2 = true
    ∨ on_error IsErrorQuotaExceeded err2 = true in
  ∃ r sf,
    CreateImageStreamMapping l userClient tag image s = Returns r sf
    ∧ images sf = images s
    ∧ (proceeds →
       trace sf = (trace s ++ [mappingRequest; streamRequest;
                               CacheImageStream l stream; mappingRequest])%list
       ∧ service sf = σ3
       ∧ facades sf =
           <[l := set_imageStreamGetter self
                    (set_cachedImageStream (imageStreamGetter self)
                       (Fetched (inl stream)))]> (facades s)
       ∧ get l sf = Returns (inl stream) sf
       ∧ (err3 = None → r = None)
       ∧ (∀ e3, err3 = Some e3 →
            ∃ re, r = Some re ∧ rerrors.Err re = Some e3
                  ∧ (IsErrorQuotaExceeded e3 = true →
                     rerrors.Code re = ErrImageStreamForbiddenCode)
                  ∧ (IsErrorQuotaExceeded e3 = false →
                     rerrors.Code re = ErrImageStreamUnknownErrorCode)))
    ∧ (¬ proceeds →
       trace sf = (trace s ++ [mappingRequest; streamRequest])%list
       ∧ service sf = σ2
       ∧ facades sf = facades s
       ∧ ∃ re, r = Some re ∧ rerrors.Err re = err2
               ∧ (denied → rerrors.Code re = ErrImageStreamForbiddenCode)
               ∧ (¬ denied → rerrors.Code re = ErrImageStreamUnknownErrorCode)).
Proof.
  intros Hl Himg ism stream mappingRequest streamRequest Hfirst Hquota Hmiss Hsecond
    Hthird proceeds denied.
  rewrite (CreateImageStreamMapping_provisions s l self userClient tag image img e σ1
             err2 σ2 err3 σ3 Hl Himg Hfirst Hquota Hmiss Hsecond Hthird).
  cbv zeta. fold ism stream mappingRequest streamRequest.
  set (s4 := {| service := σ3;
                trace := ((((trace s ++ [mappingRequest]) ++ [streamRequest])
                           ++ [CacheImageStream l stream]) ++ [mappingRequest])%list;
                facades := _; images := images s |}).
  match goal with
  | |- context [if _ then ?st else _] => set (secondTime := st)
  end.
  assert (l < length (facades s))%nat as Hlt by eauto using lookup_lt_Some.
  assert (get l s4 = Returns (inl stream) s4) as Hget4.
  { unfold get.
    rewrite (bind_Returns _ _ _
               (set_imageStreamGetter self
                  (set_cachedImageStream (imageStreamGetter self)
                     (Fetched (inl stream)))) s4); [done|].
    apply deref_Some. by apply list_lookup_insert_eq. }
  assert (∃ r, secondTime = Returns r s4
               ∧ (err3 = None → r = None)
               ∧ (∀ e3, err3 = Some e3 →
                    ∃ re, r = Some re ∧ rerrors.Err re = Some e3
                          ∧ (IsErrorQuotaExceeded e3 = true →
                             rerrors.Code re = ErrImageStreamForbiddenCode)
                          ∧ (IsErrorQuotaExceeded e3 = false →
                             rerrors.Code re = ErrImageStreamUnknownErrorCode)))
    as (r4 & Hsecondtime & Hnone & Hsome).
  { unfold secondTime. destruct err3 as [e3|].
    - eexists. split; [reflexivity|]. split; [done|]. intros ? [= <-].
      eexists. split; [reflexivity|]. simpl. split; [done|].
      by split; intros ->.
    - exists None. by split_and!. }
  assert (trace s4 = (trace s ++ [mappingRequest; streamRequest;
                                  CacheImageStream l stream; mappingRequest])%list)
    as Htrace4 by (simpl; by rewrite <- !app_assoc).
  assert (proceeds → ∃ r sf,
            secondTime = Returns r sf ∧ images sf = images s
            ∧ (proceeds → trace sf = (trace s ++ [mappingRequest; streamRequest;
                                        CacheImageStream l stream; mappingRequest])%list
               ∧ service sf = σ3
               ∧ facades sf = facades s4
               ∧ get l sf = Returns (inl stream) sf
               ∧ (err3 = None → r = None)
               ∧ (∀ e3, err3 = Some e3 →
                    ∃ re, r = Some re ∧ rerrors.Err re = Some e3
                          ∧ (IsErrorQuotaExceeded e3 = true →
                             rerrors.Code re = ErrImageStreamForbiddenCode)
                          ∧ (IsErrorQuotaExceeded e3 = false →
                             rerrors.Code re = ErrImageStreamUnknownErrorCode)))
            ∧ (¬ proceeds →
               trace sf = (trace s ++ [mappingRequest; streamRequest])%list
               ∧ service sf = σ2
               ∧ facades sf = facades s
               ∧ ∃ re, r = Some re ∧ rerrors.Err re = err2
                       ∧ (denied → rerrors.Code re = ErrImageStreamForbiddenCode)
                       ∧ (¬ denied → rerrors.Code re = ErrImageStreamUnknownErrorCode)))
    as Hproceeds.
  { intros Hp. exists r4, s4. split; [done|]. split; [done|]. split; [|done].
    intros _. by split_and!. }
  destruct err2 as [e2|]; simpl.
  2:{ apply Hproceeds. unfold proceeds. eauto. }
  destruct (IsAlreadyExists e2) eqn:HAE; simpl.
  { apply Hproceeds. unfold proceeds. simpl. eauto. }
  destruct (IsConflict e2) eqn:HC; simpl.
  { apply Hproceeds. unfold proceeds. simpl. eauto. }
  assert (¬ proceeds) as Hstop.
  { unfold proceeds. simpl. intros [?|[?|?]]; congruence. }
  assert (trace s ++ [mappingRequest] ++ [streamRequest]
          = trace s ++ [mappingRequest; streamRequest])%list as Htrace2 by done.
  destruct (IsForbidden e2 || IsUnauthorized e2 || IsErrorQuotaExceeded e2) eqn:Hden.
  - eexists _, _. split; [reflexivity|]. simpl. split; [done|]. split; [done|].
    intros _. rewrite <- app_assoc. split_and!; [done..|].
    eexists. split; [reflexivity|]. simpl. split_and!; [done..|].
    intros Hno. exfalso. apply Hno. unfold denied. simpl.
    by rewrite <- !orb_true_iff, orb_assoc.
  - eexists _, _. split; [reflexivity|]. simpl. split; [done|]. split; [done|].
    intros _. rewrite <- app_assoc. split_and!; [done..|].
    eexists. split; [reflexivity|]. simpl. split_and!; [done| |done].
    unfold denied. simpl. rewrite <- !orb_true_iff, orb_assoc. congruence.
Qed.

End Properties.

(** * Examples *)

(** The facade on [ns/app] cloned for its own identity and for [ns/other]. *)
Lemma Clone_receiver_or_fresh_example :
  let s := example_state (example_service [] [] (inr (PlainError "down"))) in
  facades s !! 0%nat = Some example_facade
  ∧ Clone 0%nat "ns" "app" s = Returns 0%nat s
  ∧ ∃ s', Clone 0%nat "ns" "other" s = Returns 1%nat s'
          ∧ facades s' !! 0%nat = Some example_facade.
Proof.
  intros s.
  destruct (Clone_receiver_or_fresh s 0%nat example_facade "ns" "app" eq_refl)
    as [Hsame _].
  destruct (Clone_receiver_or_fresh s 0%nat example_facade "ns" "other" eq_refl)
    as [_ Hother].
  split; [reflexivity|]. split; [by apply Hsame|].
  destruct Hother as (l' & s' & fresh & Hclone & _ & _ & _ & _ & _ & _ & _ & _ & _ & _ & _ & Hkeep & _).
  { intros [_ Hname]. discriminate. }
  exists s'. split; [|by apply Hkeep].
  rewrite Hclone. f_equal. vm_compute in Hclone. by injection Hclone as <- _.
Defined.

(** The getter answers Forbidden: [Exists] reports Forbidden. *)
Lemma Exists_reports_example :
  let s := example_state
             (example_service [] [] (inr (NewStatusError "Forbidden" 403 None))) in
  facades s !! 0%nat = Some example_facade
  ∧ ErrImageStreamGetterNotFoundCode ≠ ErrImageStreamGetterForbiddenCode
  ∧ ∃ e s', Exists 0%nat s = Returns (false, Some e) s'
            ∧ rerrors.Code e = ErrImageStreamForbiddenCode.
Proof.
  intros s.
  assert (ErrImageStreamGetterNotFoundCode ≠ ErrImageStreamGetterForbiddenCode)
    as Hcodes by discriminate.
  split; [reflexivity|]. split; [exact Hcodes|].
  destruct (Exists_reports s 0%nat example_facade eq_refl Hcodes)
    as (r & s' & Hget & _ & _ & Hforbidden & _).
  vm_compute in Hget. injection Hget as <- <-.
  destruct (Hforbidden _ eq_refl eq_refl) as (e & Hexists & Hcode & _).
  exists e. eexists. split; [exact Hexists | exact Hcode].
Defined.

(** One TagEvent records [sha256:aa]: it is resolved. *)
Lemma ResolveImageID_single_match_example :
  let σ := example_service [] [] (inl example_local_stream) in
  let s := example_state σ in
  let s' := example_fetched σ example_local_stream in
  facades s !! 0%nat = Some example_facade
  ∧ IsNotFound (ResolveImageID_notFound "sha256:aa") = true
  ∧ IsNotFound (ResolveImageID_ambiguous "sha256:aa") = false
  ∧ get 0%nat s = Returns (inl example_local_stream) s'
  ∧ ResolveImageID 0%nat "sha256:aa" s = Returns (inl example_event_aa) s'.
Proof.
  intros σ s s'.
  assert (get 0%nat s = Returns (inl example_local_stream) s') as Hget by reflexivity.
  assert (IsNotFound (ResolveImageID_notFound "sha256:aa") = true) as Hnf
    by reflexivity.
  assert (IsNotFound (ResolveImageID_ambiguous "sha256:aa") = false) as Hamb
    by reflexivity.
  split_and!; [reflexivity|exact Hnf|exact Hamb|exact Hget|].
  destruct (ResolveImageID_single_match s 0%nat example_facade "sha256:aa"
              example_local_stream s' eq_refl Hnf Hamb Hget)
    as (Hone & _).
  destruct (Hone eq_refl) as (tag & ev & Hmatches & Hresolve & _).
  vm_compute in Hmatches. injection Hmatches as <- <-. exact Hresolve.
Defined.

(** The healthy tag is listed, the corrupt and the empty one are skipped. *)
Lemma Tags_head_digests_example :
  let σ := example_service [] [] (inl example_mixed_stream) in
  let s := example_state σ in
  let s' := example_fetched σ example_mixed_stream in
  facades s !! 0%nat = Some example_facade
  ∧ get 0%nat s = Returns (inl example_mixed_stream) s'
  ∧ ∃ m : gmap string Digest,
      Tags 0%nat s = Returns (inl m) s'
      ∧ m !! "latest" = Some "sha256:aa"
      ∧ m !! "broken" = None
      ∧ m !! "empty" = None.
Proof.
  intros σ s s'.
  assert (get 0%nat s = Returns (inl example_mixed_stream) s') as Hget by reflexivity.
  split_and!; [reflexivity|exact Hget|].
  destruct (Tags_head_digests s 0%nat example_facade example_mixed_stream s' eq_refl Hget)
    as (m & Htags & Hnone & _ & Hsome).
  exists m. split_and!; [exact Htags| | |].
  - assert (NoDup (Tag <$> Status_Tags (Status example_mixed_stream))) as Hnd
      by (apply (bool_decide_unpack _); vm_compute; exact I).
    apply (Hsome Hnd {| Tag := "latest"; Items := [example_event_aa] |}
             example_event_aa []); [by apply elem_of_cons; left | reflexivity..].
  - apply Hnone. intros history Hin Htag.
    apply elem_of_cons in Hin as [->|Hin]; [discriminate|].
    apply elem_of_cons in Hin as [->|Hin]; [right; by eexists _, _|].
    apply list_elem_of_singleton in Hin as ->. discriminate.
  - apply Hnone. intros history Hin Htag.
    apply elem_of_cons in Hin as [->|Hin]; [discriminate|].
    apply elem_of_cons in Hin as [->|Hin]; [discriminate|].
    apply list_elem_of_singleton in Hin as ->. by left.
Defined.

(** Pulled by digest, [sha256:aa] is found under [latest], whose import
    policy is insecure. *)
Lemma TagIsInsecure_policy_example :
  let σ := example_service [] [] (inl example_local_stream) in
  let s := example_state σ in
  let s' := example_fetched σ example_local_stream in
  facades s !! 0%nat = Some example_facade
  ∧ get 0%nat s = Returns (inl example_local_stream) s'
  ∧ TagIsInsecure 0%nat "" "sha256:aa" s = Returns (true, None) s'.
Proof.
  intros σ s s'.
  assert (get 0%nat s = Returns (inl example_local_stream) s') as Hget by reflexivity.
  split_and!; [reflexivity|exact Hget|].
  destruct (TagIsInsecure_policy s 0%nat example_facade example_local_stream s'
              "" "sha256:aa" eq_refl Hget) as [_ Hpolicy].
  destruct Hpolicy as (resolved & _ & Hrecent & Hflag & _).
  { intros Hann. vm_compute in Hann. discriminate. }
  assert (tagEvents example_local_stream = [("latest", example_event_aa)]) as Hevents
    by reflexivity.
  assert (resolved = "latest") as ->.
  { destruct (Hrecent eq_refl) as [[_ Hno]|(ev & Hin & _)].
    - exfalso. apply (Hno ("latest", example_event_aa)); [|reflexivity].
      rewrite Hevents. apply list_elem_of_here.
    - rewrite Hevents in Hin. apply list_elem_of_singleton in Hin. congruence. }
  apply (Hflag 0%nat {| TagReference_Name := "latest";
                        ImportPolicy := {| Insecure := true; Scheduled := false |} |});
    [discriminate | reflexivity | reflexivity | intros j t' Hj; lia].
Defined.

(** A stream that holds local images only: the blob index is not asked for. *)
Lemma RemoteRepositoriesForBlob_local_only_example :
  let σ := example_service [] [] (inl example_local_stream) in
  let s := example_state σ in
  let s' := example_fetched σ example_local_stream in
  facades s !! 0%nat = Some example_facade
  ∧ get 0%nat s = Returns (inl example_local_stream) s'
  ∧ imageStreamHasExternalReferences example_local_stream = false
  ∧ RemoteRepositoriesForBlob 0%nat "sha256:bb" s = Returns ([], [], None) s'.
Proof.
  intros σ s s'.
  assert (get 0%nat s = Returns (inl example_local_stream) s') as Hget by reflexivity.
  assert (imageStreamHasExternalReferences example_local_stream = false) as Hlocal
    by reflexivity.
  split_and!; [reflexivity|exact Hget|exact Hlocal|].
  destruct (RemoteRepositoriesForBlob_local_only s 0%nat example_facade
              example_local_stream s' "sha256:bb" eq_refl Hget) as (_ & _ & Hblob).
  exact (proj1 (Hblob Hlocal)).
Defined.

(** The image is returned with the reference of its TagEvent, and the cached
    record keeps its own. *)
Lemma GetImageOfImageStream_copies_example :
  let stream :=
    example_stream ∅ []
      [{| Tag := "latest";
          Items := [example_event 10 "quay.example.org/team/app@sha256:aa" "sha256:aa"] |}]
  in
  let σ := example_service [] [] (inl stream) in
  let s := example_state σ in
  ∃ s1 s2 s3,
    facades s !! 0%nat = Some example_facade
    ∧ get 0%nat s = Returns (inl stream) s1
    ∧ imageClient_Get 0%nat "sha256:aa" s1 = Returns (inl 1%nat) s2
    ∧ images s2 !! 1%nat = Some example_image
    ∧ GetImageOfImageStream 0%nat "sha256:aa" s = Returns (inl 2%nat) s3
    ∧ Image_DockerImageReference <$> images s3 !! 2%nat
      = Some "quay.example.org/team/app@sha256:aa"
    ∧ Image_DockerImageReference <$> images s3 !! 1%nat
      = Some "registry.local/ns/app@sha256:aa"
    ∧ getImage 0%nat "sha256:aa" s3 = Returns (inl 1%nat) s3.
Proof.
  intros stream σ s.
  assert (get 0%nat s = Returns (inl stream) (example_fetched σ stream)) as Hget
    by reflexivity.
  destruct (imageClient_Get 0%nat "sha256:aa" (example_fetched σ stream))
    as [r s2|s2] eqn:Hfetch; pose proof Hfetch as Hrun; vm_compute in Hrun;
    [|discriminate Hrun].
  injection Hrun as Hr Hs2. subst r.
  assert (images s2 !! 1%nat = Some example_image) as Himg by (by rewrite <- Hs2).
  destruct (GetImageOfImageStream_copies s 0%nat example_facade "sha256:aa" stream
              (example_fetched σ stream)
              (example_event 10 "quay.example.org/team/app@sha256:aa" "sha256:aa")
              1%nat s2 example_image eq_refl Hget eq_refl Hfetch Himg)
    as (p & s3 & Hcall & Hcopy & _ & _ & Hkept & _ & Hagain).
  assert (p = 2%nat) as ->.
  { pose proof Hcall as Hrun. vm_compute in Hrun. by injection Hrun as <- _. }
  exists (example_fetched σ stream), s2, s3. split_and!; try done.
  - exact (f_equal (fmap Image_DockerImageReference) Hcopy).
  - exact (f_equal (fmap Image_DockerImageReference) Hkept).
Defined.

(** The namespace is reported missing, its kind written with a capital: the
    run fails with Forbidden after the one request. *)
Lemma CreateImageStreamMapping_first_failure_example :
  let σ := example_service [Some example_namespace_missing] [] (inl example_local_stream) in
  let σ1 := example_service [] [] (inl example_local_stream) in
  let s := example_state σ in
  facades s !! 0%nat = Some example_facade
  ∧ images s !! 0%nat = Some example_image
  ∧ ImageStreamMappings_Create registryClient "ns" example_mapping (service s)
    = (Some example_namespace_missing, σ1)
  ∧ ∃ r s1,
      CreateImageStreamMapping 0%nat pusher "latest" 0%nat s = Returns (Some r) s1
      ∧ rerrors.Code r = ErrImageStreamForbiddenCode
      ∧ trace s1 = [CreateImageStreamMappingRequest registryClient "ns" example_mapping].
Proof.
  intros σ σ1 s.
  assert (ImageStreamMappings_Create registryClient "ns" example_mapping (service s)
          = (Some example_namespace_missing, σ1)) as Hfirst by reflexivity.
  assert (IsErrorQuotaExceeded example_namespace_missing = false) as Hquota
    by reflexivity.
  assert (namespaceMissing example_namespace_missing) as Hns.
  { eexists _, _. split; [reflexivity|]. by split_and!. }
  split_and!; [reflexivity..|exact Hfirst|].
  destruct (CreateImageStreamMapping_first_failure s 0%nat example_facade pusher "latest"
              0%nat example_image example_namespace_missing σ1 eq_refl eq_refl Hfirst)
    as (_ & Hforbidden & _).
  destruct (Hforbidden Hquota Hns) as (r & Hrun & Hcode & _).
  exists r. eexists. split_and!; [exact Hrun | exact Hcode | reflexivity].
Defined.

(** The same failure is none of the shapes that the specification names: it
    is no quota error, its kind is not "namespaces" as written, and it does
    not tell of a missing stream.  Yet the run does not fail with Unknown. *)
Lemma CreateImageStreamMapping_Namespaces_kind_not_Unknown :
  let e := example_namespace_missing in
  let s := example_state (example_service [Some e] [] (inl example_local_stream)) in
  IsErrorQuotaExceeded e = false
  ∧ (∀ status details,
       e = StatusError status → metav1.Details status = Some details →
       metav1.Kind details ≠ "namespaces")
  ∧ ¬ streamMissing "app" e
  ∧ ¬ ∃ r s',
        CreateImageStreamMapping 0%nat pusher "latest" 0%nat s = Returns (Some r) s'
        ∧ rerrors.Code r = ErrImageStreamUnknownErrorCode.
Proof.
  intros e s. split_and!.
  - reflexivity.
  - intros status details [= <-] [= <-]. discriminate.
  - intros (status & details & [= <-] & [= <-] & Hkind & _). discriminate.
  - intros (r & s' & Hrun & Hcode). vm_compute in Hrun.
    injection Hrun as <- _. discriminate.
Qed.

(** The stream is missing and has been created meanwhile by someone else:
    it is cached and the mapping is created at the second attempt. *)
Lemma CreateImageStreamMapping_provisions_once_example :
  let stream := ImageStream_set_Name ImageStream_zero "app" in
  let σ := example_service [Some example_stream_missing; None]
             [Some example_already_exists] (inl example_local_stream) in
  let σ1 := example_service [None] [Some example_already_exists]
              (inl example_local_stream) in
  let σ2 := example_service [None] [] (inl example_local_stream) in
  let σ3 := example_service [] [] (inl example_local_stream) in
  let s := example_state σ in
  facades s !! 0%nat = Some example_facade
  ∧ images s !! 0%nat = Some example_image
  ∧ ImageStreamMappings_Create registryClient "ns" example_mapping (service s)
    = (Some example_stream_missing, σ1)
  ∧ IsErrorQuotaExceeded example_stream_missing = false
  ∧ streamMissing "app" example_stream_missing
  ∧ ImageStreams_Create pusher "ns" stream σ1 = (Some example_already_exists, σ2)
  ∧ ImageStreamMappings_Create registryClient "ns" example_mapping σ2 = (None, σ3)
  ∧ ∃ sf,
      CreateImageStreamMapping 0%nat pusher "latest" 0%nat s = Returns None sf
      ∧ trace sf = [CreateImageStreamMappingRequest registryClient "ns" example_mapping;
                    CreateImageStreamRequest pusher "ns" stream;
                    CacheImageStream 0%nat stream;
                    CreateImageStreamMappingRequest registryClient "ns" example_mapping]
      ∧ get 0%nat sf = Returns (inl stream) sf.
Proof.
  intros stream σ σ1 σ2 σ3 s.
  assert (ImageStreamMappings_Create registryClient "ns" example_mapping (service s)
          = (Some example_stream_missing, σ1)) as Hfirst by reflexivity.
  assert (IsErrorQuotaExceeded example_stream_missing = false) as Hquota by reflexivity.
  assert (streamMissing "app" example_stream_missing) as Hmissing.
  { eexists _, _. split; [reflexivity|]. by split_and!. }
  assert (ImageStreams_Create pusher "ns" stream σ1 = (Some example_already_exists, σ2))
    as Hsecond by reflexivity.
  assert (ImageStreamMappings_Create registryClient "ns" example_mapping σ2 = (None, σ3))
    as Hthird by reflexivity.
  split_and!; [reflexivity..|exact Hfirst|exact Hquota|exact Hmissing|exact Hsecond
              |exact Hthird|].
  destruct (CreateImageStreamMapping_provisions_once s 0%nat example_facade pusher "latest"
              0%nat example_image example_stream_missing σ1
              (Some example_already_exists) σ2 None σ3
              eq_refl eq_refl Hfirst Hquota Hmissing Hsecond Hthird)
    as (r & sf & Hrun & _ & Hproceeds & _).
  destruct Hproceeds as (Htrace & _ & _ & Hget & Hnone & _); [by left|].
  rewrite (Hnone eq_refl) in Hrun. exists sf. split_and!; [exact Hrun|exact Htrace|exact Hget].
Defined.

(** A not-found status without details: the run panics after the one
    request. *)
Lemma CreateImageStreamMapping_panics_without_details_example :
  let σ := example_service [Some example_bare_not_found] [] (inl example_local_stream) in
  let σ1 := example_service [] [] (inl example_local_stream) in
  let s := example_state σ in
  facades s !! 0%nat = Some example_facade
  ∧ images s !! 0%nat = Some example_image
  ∧ ImageStreamMappings_Create registryClient "ns" example_mapping (service s)
    = (Some example_bare_not_found, σ1)
  ∧ IsErrorQuotaExceeded example_bare_not_found = false
  ∧ notFoundWithoutDetails example_bare_not_found
  ∧ CreateImageStreamMapping 0%nat pusher "latest" 0%nat s =
      Panics {| service := σ1;
                trace := [CreateImageStreamMappingRequest registryClient "ns"
                            example_mapping];
                facades := [example_facade]; images := [example_image] |}.
Proof.
  intros σ σ1 s.
  assert (ImageStreamMappings_Create registryClient "ns" example_mapping (service s)
          = (Some example_bare_not_found, σ1)) as Hfirst by reflexivity.
  assert (IsErrorQuotaExceeded example_bare_not_found = false) as Hquota by reflexivity.
  assert (notFoundWithoutDetails example_bare_not_found) as Hbare.
  { eexists. split; [reflexivity|]. by split. }
  split_and!; [reflexivity..|exact Hfirst|exact Hquota|exact Hbare|].
  exact (CreateImageStreamMapping_panics_without_details s 0%nat example_facade pusher
           "latest" 0%nat example_image example_bare_not_found σ1
           eq_refl eq_refl Hfirst Hquota Hbare).
Defined.

(** * Further properties of the facade *)

Section Coverage.
Context {Σ : Type} {T : Transport Σ} {K : Classifiers} {I : Imports}.

Implicit Types (s : state Σ) (l : loc) (self : imageStream).

(** ** CreateImageStreamMapping, on every input *)

(** Every run of [CreateImageStreamMapping] ends in one of three states:
    after the first mapping create, after the stream create, or after the
    second mapping create. *)
Lemma CreateImageStreamMapping_outcome s l self userClient tag image img :
  facades s !! l = Some self →
  images s !! image = Some img →
  let ism := {| ISM_Namespace := namespace self; ISM_Name := name self;
                ISM_Image := img; ISM_Tag := tag |} in
  let stream := ImageStream_set_Name ImageStream_zero (name self) in
  let mappingRequest :=
    CreateImageStreamMappingRequest (registryOSClient self) (namespace self) ism in
  let streamRequest := CreateImageStreamRequest userClient (namespace self) stream in
  let code (r : rerrors.Error) :=
    rerrors.Code r = ErrImageStreamForbiddenCode
    ∨ rerrors.Code r = ErrImageStreamUnknownErrorCode in
  ∃ err1 σ1 err2 σ2 err3 σ3,
    ImageStreamMappings_Create (registryOSClient self) (namespace self) ism (service s)
      = (err1, σ1)
    ∧ ImageStreams_Create userClient (namespace self) stream σ1 = (err2, σ2)
    ∧ ImageStreamMappings_Create (registryOSClient self) (namespace self) ism σ2
      = (err3, σ3)
    ∧ let s1 := mkState σ1 (trace s ++ [mappingRequest])%list (facades s) (images s) in
      let s2 := mkState σ2 ((trace s ++ [mappingRequest]) ++ [streamRequest])%list
                  (facades s) (images s) in
      let s4 := mkState σ3
                  ((((trace s ++ [mappingRequest]) ++ [streamRequest])
                    ++ [CacheImageStream l stream]) ++ [mappingRequest])%list
                  (<[l := set_imageStreamGetter self
                            (set_cachedImageStream (imageStreamGetter self)
                               (Fetched (inl stream)))]> (facades s))
                  (images s) in
      let o := CreateImageStreamMapping l userClient tag image s in
      (err1 = None ∧ o = Returns None s1)
      ∨ o = Panics s1
      ∨ (∃ r, o = Returns (Some r) s1 ∧ rerrors.Err r = err1 ∧ is_Some err1 ∧ code r)
      ∨ (∃ r, o = Returns (Some r) s2 ∧ rerrors.Err r = err2 ∧ is_Some err2 ∧ code r)
      ∨ (err3 = None ∧ o = Returns None s4)
      ∨ (∃ r, o = Returns (Some r) s4 ∧ rerrors.Err r = err3 ∧ is_Some err3 ∧ code r).
Proof.
  intros Hl Himg ism stream mappingRequest streamRequest code.
  destruct (ImageStreamMappings_Create (registryOSClient self) (namespace self) ism
              (service s)) as [err1 σ1] eqn:Hfirst.
  destruct (ImageStreams_Create userClient (namespace self) stream σ1)
    as [err2 σ2] eqn:Hsecond.
  destruct (ImageStreamMappings_Create (registryOSClient self) (namespace self) ism σ2)
    as [err3 σ3] eqn:Hthird.
  exists err1, σ1, err2, σ2, err3, σ3. split_and!; [done..|]. cbv zeta.
  destruct err1 as [e|].
  2:{ left. split; [done|]. unfold CreateImageStreamMapping.
      rewrite (bind_Returns _ _ _ _ _ (deref_Some _ _ _ Hl)).
      rewrite (bind_Returns _ _ _ _ _ (deref_image_Some _ _ _ Himg)).
      cbv zeta. by rewrite (bind_request _ _ _ _ _ _ Hfirst). }
  right.
  destruct (CreateImageStreamMapping_classifies s l self userClient tag image img e σ1
              Hl Himg Hfirst)
    as [[_ Hr]|[(_ & _ & Hr)|[(_ & _ & Hr)|[[Hquota Hmiss]|(_ & _ & _ & _ & Hr)]]]].
  - right. left. destruct Hr as (r & Hr & Hcode & Herr). exists r.
    split_and!; [done..|by eexists|by left].
  - by left.
  - right. left. destruct Hr as (r & Hr & Hcode & Herr). exists r.
    split_and!; [done..|by eexists|by left].
  - right. right.
    rewrite (CreateImageStreamMapping_provisions s l self userClient tag image img e σ1
               err2 σ2 err3 σ3 Hl Himg Hfirst Hquota Hmiss Hsecond Hthird).
    cbv zeta. fold ism stream mappingRequest streamRequest.
    assert (∀ o, o =
              match err3 with
              | Some e3 =>
                  Returns
                    (Some (rerrors.NewError
                             (if IsErrorQuotaExceeded e3 then ErrImageStreamForbiddenCode
                              else ErrImageStreamUnknownErrorCode)
                             (if IsErrorQuotaExceeded e3
                              then "CreateImageStreamMapping: quota exceeded during creation of "
                                   +:+ Reference self +:+ " ImageStreamMapping second time"
                              else "CreateImageStreamMapping: error creating "
                                   +:+ Reference self +:+ " ImageStreamMapping second time")
                             err3))
                    (mkState σ3
                       ((((trace s ++ [mappingRequest]) ++ [streamRequest])
                         ++ [CacheImageStream l stream]) ++ [mappingRequest])%list
                       (<[l := set_imageStreamGetter self
                                 (set_cachedImageStream (imageStreamGetter self)
                                    (Fetched (inl stream)))]> (facades s))
                       (images s))
              | None =>
                  Returns None
                    (mkState σ3
                       ((((trace s ++ [mappingRequest]) ++ [streamRequest])
                         ++ [CacheImageStream l stream]) ++ [mappingRequest])%list
                       (<[l := set_imageStreamGetter self
                                 (set_cachedImageStream (imageStreamGetter self)
                                    (Fetched (inl stream)))]> (facades s))
                       (images s))
              end →
            (∃ r, o = Returns (Some r)
                        (mkState σ2 ((trace s ++ [mappingRequest]) ++ [streamRequest])%list
                           (facades s) (images s))
                  ∧ rerrors.Err r = err2 ∧ is_Some err2 ∧ code r)
            ∨ (err3 = None
               ∧ o = Returns None
                       (mkState σ3
                          ((((trace s ++ [mappingRequest]) ++ [streamRequest])
                            ++ [CacheImageStream l stream]) ++ [mappingRequest])%list
                          (<[l := set_imageStreamGetter self
                                    (set_cachedImageStream (imageStreamGetter self)
                                       (Fetched (inl stream)))]> (facades s))
                          (images s)))
            ∨ (∃ r, o = Returns (Some r)
                          (mkState σ3
                             ((((trace s ++ [mappingRequest]) ++ [streamRequest])
                               ++ [CacheImageStream l stream]) ++ [mappingRequest])%list
                             (<[l := set_imageStreamGetter self
                                       (set_cachedImageStream (imageStreamGetter self)
                                          (Fetched (inl stream)))]> (facades s))
                             (images s))
                    ∧ rerrors.Err r = err3 ∧ is_Some err3 ∧ code r)) as Hsecondtime.
    { intros o ->. right. destruct err3 as [e3|]; [right|by left].
      eexists. split; [reflexivity|]. simpl. split_and!; [done|by eexists|].
      unfold code. simpl. destruct (IsErrorQuotaExceeded e3); eauto. }
    destruct (on_error IsAlreadyExists err2 || on_error IsConflict err2);
      [by apply Hsecondtime|].
    destruct (on_error IsForbidden err2 || on_error IsUnauthorized err2
              || on_error IsErrorQuotaExceeded err2) eqn:Hdenied.
    { left. eexists. split; [reflexivity|]. simpl. split_and!; [done| |by left].
      destruct err2; [by eexists|discriminate Hdenied]. }
    case_bool_decide as Hsome; [|by apply Hsecondtime].
    left. eexists. split; [reflexivity|]. simpl. split_and!; [done..|by right].
  - right. left. destruct Hr as (r & Hr & Hcode & Herr). exists r.
    split_and!; [done..|by eexists|by right].
Qed.


(** X1.  Whatever the service answers, [CreateImageStreamMapping] sends one
    mapping create through the registry's client, then at most one stream
    create through the caller's client, then at most one more mapping create
    with the same payload, after the stream has been put into the getter's
    cell; it sends nothing else. *)
Theorem CreateImageStreamMapping_requests s l self userClient tag image img :
  facades s !! l = Some self →
  images s !! image = Some img →
  let ism := {| ISM_Namespace := namespace self; ISM_Name := name self;
                ISM_Image := img; ISM_Tag := tag |} in
  let stream := ImageStream_set_Name ImageStream_zero (name self) in
  let mappingRequest :=
    CreateImageStreamMappingRequest (registryOSClient self) (namespace self) ism in
  let streamRequest := CreateImageStreamRequest userClient (namespace self) stream in
  ∃ sent,
    trace (final (CreateImageStreamMapping l userClient tag image s))
      = (trace s ++ sent)%list
    ∧ (sent = [mappingRequest]
       ∨ sent = [mappingRequest; streamRequest]
       ∨ sent = [mappingRequest; streamRequest; CacheImageStream l stream;
                 mappingRequest]).
Proof.
  intros Hl Himg ism stream mappingRequest streamRequest.
  destruct (CreateImageStreamMapping_outcome s l self userClient tag image img Hl Himg)
    as (err1 & σ1 & err2 & σ2 & err3 & σ3 & _ & _ & _ & Hcases).
  cbv zeta in Hcases. fold ism stream mappingRequest streamRequest in Hcases.
  destruct Hcases as [[_ Ho]|[Ho|[(r & Ho & _)|[(r & Ho & _)|[[_ Ho]|(r & Ho & _)]]]]];
    rewrite Ho; simpl; rewrite <- ?app_assoc; eexists; (split; [reflexivity|]); simpl;
    eauto.
Qed.

(** X2.  [CreateImageStreamMapping] changes no image record and no facade but
    the receiver, and of the receiver nothing but the cell of the stream
    snapshot, which it either leaves or sets to the stream record that bears
    the name only. *)
Theorem CreateImageStreamMapping_frame s l self userClient tag image img :
  facades s !! l = Some self →
  images s !! image = Some img →
  let sf := final (CreateImageStreamMapping l userClient tag image s) in
  images sf = images s
  ∧ length (facades sf) = length (facades s)
  ∧ (∀ k, k ≠ l → facades sf !! k = facades s !! k)
  ∧ ∃ self',
      facades sf !! l = Some self'
      ∧ namespace self' = namespace self
      ∧ name self' = name self
      ∧ registryOSClient self' = registryOSClient self
      ∧ imageClient self' = imageClient self
      ∧ cachedImageStreamLayers (imageStreamGetter self')
        = cachedImageStreamLayers (imageStreamGetter self)
      ∧ (cachedImageStream (imageStreamGetter self')
         = cachedImageStream (imageStreamGetter self)
         ∨ cachedImageStream (imageStreamGetter self')
           = Fetched (inl (ImageStream_set_Name ImageStream_zero (name self)))).
Proof.
  intros Hl Himg sf. unfold sf.
  assert (l < length (facades s))%nat as Hlt by eauto using lookup_lt_Some.
  destruct (CreateImageStreamMapping_outcome s l self userClient tag image img Hl Himg)
    as (err1 & σ1 & err2 & σ2 & err3 & σ3 & _ & _ & _ & Hcases).
  cbv zeta in Hcases.
  destruct Hcases as [[_ Ho]|[Ho|[(r & Ho & _)|[(r & Ho & _)|[[_ Ho]|(r & Ho & _)]]]]];
    rewrite Ho; simpl.
  1-4: split_and!; [done..|]; exists self; split_and!; [done..|by left].
  all: split_and!; [done|by rewrite length_insert
                   |by intros k Hk; apply list_lookup_insert_ne|];
    eexists; split; [by apply list_lookup_insert_eq|]; simpl;
    split_and!; [done..|by right].
Qed.

(** X3.  An error returned by [CreateImageStreamMapping] has the code
    Forbidden or Unknown, never NotFound or ImageNotFound, and wraps the
    error that the service answered. *)
Theorem CreateImageStreamMapping_codes s l self userClient tag image img r sf :
  facades s !! l = Some self →
  images s !! image = Some img →
  CreateImageStreamMapping l userClient tag image s = Returns (Some r) sf →
  (rerrors.Code r = ErrImageStreamForbiddenCode
   ∨ rerrors.Code r = ErrImageStreamUnknownErrorCode)
  ∧ rerrors.Code r ≠ ErrImageStreamNotFoundCode
  ∧ rerrors.Code r ≠ ErrImageStreamImageNotFoundCode
  ∧ is_Some (rerrors.Err r).
Proof.
  intros Hl Himg Hrun.
  destruct (CreateImageStreamMapping_outcome s l self userClient tag image img Hl Himg)
    as (err1 & σ1 & err2 & σ2 & err3 & σ3 & _ & _ & _ & Hcases).
  cbv zeta in Hcases. rewrite Hrun in Hcases.
  assert (∀ err, (rerrors.Code r = ErrImageStreamForbiddenCode
                  ∨ rerrors.Code r = ErrImageStreamUnknownErrorCode) →
                 rerrors.Err r = err → is_Some err →
          (rerrors.Code r = ErrImageStreamForbiddenCode
           ∨ rerrors.Code r = ErrImageStreamUnknownErrorCode)
          ∧ rerrors.Code r ≠ ErrImageStreamNotFoundCode
          ∧ rerrors.Code r ≠ ErrImageStreamImageNotFoundCode
          ∧ is_Some (rerrors.Err r)) as Hgoal.
  { intros err Hcode -> Hsome. split_and!; [done| | |done];
      destruct Hcode as [-> | ->]; discriminate. }
  destruct Hcases
    as [[_ Ho]|[Ho|[(r' & Ho & ? & ? & ?)|[(r' & Ho & ? & ? & ?)
       |[[_ Ho]|(r' & Ho & ? & ? & ?)]]]]];
    try discriminate Ho; injection Ho as <- _; eauto.
Qed.


(** X4.  After a run that has provisioned the stream, the facade takes the
    stream to be the record it has created, which bears a name and nothing
    else: without any request, [Exists] answers true and [Tags] returns the
    empty map, whatever the service holds by then. *)
Theorem CreateImageStreamMapping_then_Tags s l self userClient tag image img r sf :
  facades s !! l = Some self →
  images s !! image = Some img →
  let ism := {| ISM_Namespace := namespace self; ISM_Name := name self;
                ISM_Image := img; ISM_Tag := tag |} in
  let stream := ImageStream_set_Name ImageStream_zero (name self) in
  let mappingRequest :=
    CreateImageStreamMappingRequest (registryOSClient self) (namespace self) ism in
  let streamRequest := CreateImageStreamRequest userClient (namespace self) stream in
  CreateImageStreamMapping l userClient tag image s = Returns r sf →
  trace sf = (trace s ++ [mappingRequest; streamRequest; CacheImageStream l stream;
                          mappingRequest])%list →
  Exists l sf = Returns (true, None) sf
  ∧ Tags l sf = Returns (inl ∅) sf.
Proof.
  intros Hl Himg ism stream mappingRequest streamRequest Hrun Htrace.
  assert (l < length (facades s))%nat as Hlt by eauto using lookup_lt_Some.
  destruct (CreateImageStreamMapping_outcome s l self userClient tag image img Hl Himg)
    as (err1 & σ1 & err2 & σ2 & err3 & σ3 & _ & _ & _ & Hcases).
  cbv zeta in Hcases. fold ism stream mappingRequest streamRequest in Hcases.
  rewrite Hrun in Hcases.
  assert (facades sf !! l =
            Some (set_imageStreamGetter self
                    (set_cachedImageStream (imageStreamGetter self)
                       (Fetched (inl stream))))) as Hl'.
  { destruct Hcases
      as [[_ Ho]|[Ho|[(r' & Ho & _)|[(r' & Ho & _)|[[_ Ho]|(r' & Ho & _)]]]]];
      try discriminate Ho; injection Ho as _ ->; simpl in *;
      try (by apply list_lookup_insert_eq);
      rewrite <- ?app_assoc in Htrace; apply app_inv_head in Htrace;
      discriminate Htrace. }
  assert (get l sf = Returns (inl stream) sf) as Hget.
  { unfold get. by rewrite (bind_Returns _ _ _ _ _ (deref_Some _ _ _ Hl')). }
  split.
  - unfold Exists. rewrite (bind_Returns _ _ _ _ _ (deref_Some _ _ _ Hl')).
    by rewrite (bind_Returns _ _ _ _ _ Hget).
  - by rewrite (Tags_of_get _ _ _ _ _ Hl' Hget).
Qed.

(** ** The image of an image stream *)

Lemma ResolveImageID_state s l self dgst x s1 :
  facades s !! l = Some self →
  ResolveImageID l dgst s = Returns x s1 →
  ∃ r, get l s = Returns r s1.
Proof.
  intros Hl Hrun. destruct (get_Returns s l self Hl) as (r & s' & Hget & _).
  unfold ResolveImageID in Hrun.
  rewrite (bind_Returns _ _ _ _ _ (deref_Some _ _ _ Hl)) in Hrun.
  rewrite (bind_Returns _ _ _ _ _ Hget) in Hrun.
  exists r. destruct r as [stream|rErr].
  - destruct (originutil_ResolveImageID stream dgst);
      injection Hrun as _ <-; done.
  - by injection Hrun as _ <-.
Qed.

(** X5.  When the digest does not resolve in the stream,
    [GetImageOfImageStream] returns the error of [ResolveImageID] and the
    image is not fetched: no request for an image is sent, the heap of image
    records and the image cache of the facade are as they were. *)
Theorem GetImageOfImageStream_unresolved s l self dgst e s1 :
  facades s !! l = Some self →
  ResolveImageID l dgst s = Returns (inr e) s1 →
  GetImageOfImageStream l dgst s = Returns (inr e) s1
  ∧ images s1 = images s
  ∧ (∀ c d, GetImageRequest c d ∈ trace s1 → GetImageRequest c d ∈ trace s)
  ∧ ∃ self', facades s1 !! l = Some self' ∧ imageClient self' = imageClient self.
Proof.
  intros Hl Hresolve. split.
  { unfold GetImageOfImageStream, getStoredImageOfImageStream.
    rewrite bind_bind. by rewrite (bind_Returns _ _ _ _ _ Hresolve). }
  destruct (ResolveImageID_state _ _ _ _ _ _ Hl Hresolve) as [r Hget].
  pose proof (get_facade _ _ _ _ _ Hl Hget) as Hl1.
  destruct (get_Returns s l self Hl) as (r' & s' & Hget' & _ & Himages & Htrace).
  rewrite Hget in Hget'. injection Hget' as <- <-.
  split_and!; [done| |by eexists].
  intros c d Hin.
  destruct Htrace as [[Ht _]|(c' & ns' & nm' & Ht)]; rewrite Ht in Hin; [done|].
  apply elem_of_app in Hin as [Hin|Hin]; [done|].
  by apply list_elem_of_singleton in Hin.
Qed.

(** X6.  When the digest resolves and the fetch of the image fails,
    [GetImageOfImageStream] returns an error that wraps the failure, with
    the code ImageNotFound when the failure is a not-found error and Unknown
    otherwise, in the state the image getter left. *)
Theorem GetImageOfImageStream_fetch_fails s l self dgst stream s1 tagEvent err s2 :
  facades s !! l = Some self →
  get l s = Returns (inl stream) s1 →
  originutil_ResolveImageID stream dgst = inl tagEvent →
  imageClient_Get l dgst s1 = Returns (inr err) s2 →
  ∃ e, GetImageOfImageStream l dgst s = Returns (inr e) s2
       ∧ rerrors.Err e = Some err
       ∧ (IsNotFound err = true → rerrors.Code e = ErrImageStreamImageNotFoundCode)
       ∧ (IsNotFound err = false → rerrors.Code e = ErrImageStreamUnknownErrorCode).
Proof.
  intros Hl Hget Hres Hfetch.
  pose proof (get_facade _ _ _ _ _ Hl Hget) as Hl1.
  assert (ResolveImageID l dgst s = Returns (inl tagEvent) s1) as Hresolve
    by (by rewrite (ResolveImageID_of_get _ _ _ _ _ _ Hl Hget), Hres).
  unfold GetImageOfImageStream, getStoredImageOfImageStream.
  rewrite bind_bind, (bind_Returns _ _ _ _ _ Hresolve). cbv beta iota.
  rewrite bind_bind. unfold getImage at 1.
  rewrite bind_bind, (bind_Returns _ _ _ _ _ (deref_Some _ _ _ Hl1)).
  rewrite bind_bind, (bind_Returns _ _ _ _ _ Hfetch). cbv beta iota.
  destruct (IsNotFound err); eexists; (split; [reflexivity|]); by split_and!.
Qed.

(** ** Failures of the stream getter *)

(** X7.  When the stream getter fails, every method that reads the stream
    fails in the state the getter left, with an error that wraps the
    getter's and whose code is NotFound for the getter's not-found code,
    Forbidden for its forbidden code and Unknown otherwise; the other
    results are empty. *)
Theorem getter_failure_translated s l self rErr s1 :
  facades s !! l = Some self →
  get l s = Returns (inr rErr) s1 →
  ∃ code,
    (rerrors.Code rErr = ErrImageStreamGetterNotFoundCode →
     code = ErrImageStreamNotFoundCode)
    ∧ (rerrors.Code rErr ≠ ErrImageStreamGetterNotFoundCode →
       rerrors.Code rErr = ErrImageStreamGetterForbiddenCode →
       code = ErrImageStreamForbiddenCode)
    ∧ (rerrors.Code rErr ≠ ErrImageStreamGetterNotFoundCode →
       rerrors.Code rErr ≠ ErrImageStreamGetterForbiddenCode →
       code = ErrImageStreamUnknownErrorCode)
    ∧ (∀ dgst, ∃ e, ResolveImageID l dgst s = Returns (inr e) s1
                    ∧ rerrors.Code e = code
                    ∧ rerrors.Err e = Some (rerrors.as_error rErr))
    ∧ (∀ dgst, ∃ e, GetImageOfImageStream l dgst s = Returns (inr e) s1
                    ∧ rerrors.Code e = code
                    ∧ rerrors.Err e = Some (rerrors.as_error rErr))
    ∧ (∀ tag dgst, ∃ e, TagIsInsecure l tag dgst s = Returns (false, Some e) s1
                        ∧ rerrors.Code e = code
                        ∧ rerrors.Err e = Some (rerrors.as_error rErr))
    ∧ (∃ e, Tags l s = Returns (inr e) s1
            ∧ rerrors.Code e = code
            ∧ rerrors.Err e = Some (rerrors.as_error rErr))
    ∧ (∀ dgst, ∃ e, RemoteRepositoriesForBlob l dgst s = Returns ([], [], Some e) s1
                    ∧ rerrors.Code e = code
                    ∧ rerrors.Err e = Some (rerrors.as_error rErr))
    ∧ (∀ dgst, ∃ e, RemoteRepositoriesForManifest l dgst s = Returns ([], [], Some e) s1
                    ∧ rerrors.Code e = code
                    ∧ rerrors.Err e = Some (rerrors.as_error rErr)).
Proof.
  intros Hl Hget.
  exists (rerrors.Code (convertImageStreamGetterError rErr "")).
  assert (∀ dgst, ∃ e, ResolveImageID l dgst s = Returns (inr e) s1
                       ∧ rerrors.Code e
                         = rerrors.Code (convertImageStreamGetterError rErr "")
                       ∧ rerrors.Err e = Some (rerrors.as_error rErr)) as Hresolve.
  { intros dgst. unfold ResolveImageID.
    rewrite (bind_Returns _ _ _ _ _ (deref_Some _ _ _ Hl)).
    rewrite (bind_Returns _ _ _ _ _ Hget). by eexists. }
  split_and!.
  - intros Hnf. simpl. by rewrite bool_decide_eq_true_2.
  - intros Hnf Hfb. simpl.
    by rewrite bool_decide_eq_false_2, bool_decide_eq_true_2.
  - intros Hnf Hfb. simpl. by rewrite !bool_decide_eq_false_2.
  - done.
  - intros dgst. destruct (Hresolve dgst) as (e & Hrun & Hcode & Herr). exists e.
    split; [|done]. unfold GetImageOfImageStream, getStoredImageOfImageStream.
    rewrite bind_bind. by rewrite (bind_Returns _ _ _ _ _ Hrun).
  - intros tag dgst. unfold TagIsInsecure.
    rewrite (bind_Returns _ _ _ _ _ (deref_Some _ _ _ Hl)).
    rewrite (bind_Returns _ _ _ _ _ Hget). by eexists.
  - unfold Tags. rewrite (bind_Returns _ _ _ _ _ (deref_Some _ _ _ Hl)).
    rewrite (bind_Returns _ _ _ _ _ Hget). by eexists.
  - intros dgst. unfold RemoteRepositoriesForBlob.
    rewrite (bind_Returns _ _ _ _ _ (deref_Some _ _ _ Hl)).
    rewrite (bind_Returns _ _ _ _ _ Hget). by eexists.
  - intros dgst. unfold RemoteRepositoriesForManifest.
    rewrite (bind_Returns _ _ _ _ _ (deref_Some _ _ _ Hl)).
    rewrite (bind_Returns _ _ _ _ _ Hget). by eexists.
Qed.


(** ** Repositories for a blob and for a manifest *)

Lemma imageBlobReferencesHasBlob_true (info : ImageBlobReferences) (dgst : Digest) :
  imageBlobReferencesHasBlob info dgst = true ↔
  Config info = Some dgst ∨ dgst ∈ Layers info.
Proof.
  unfold imageBlobReferencesHasBlob. rewrite orb_true_iff, existsb_true. split.
  - intros [Hconfig|(layer & Hin & Heq)].
    + left. destruct (Config info) as [c|]; [|done].
      by apply bool_decide_eq_true_1 in Hconfig as ->.
    + right. by apply bool_decide_eq_true_1 in Heq as <-.
  - intros [->|Hin].
    + left. by apply bool_decide_eq_true_2.
    + right. exists dgst. split; [done|]. by apply bool_decide_eq_true_2.
Qed.

(** X8.  On a stream with external references [RemoteRepositoriesForBlob]
    asks for the blob index.  When that fails it returns the failure,
    wrapped; otherwise it hands to the resolver the digests of exactly those
    images of the index whose config or one of whose layers is the blob,
    each once, and returns what the resolver answers, or empty results
    without asking the resolver when there is no such image. *)
Theorem RemoteRepositoriesForBlob_images s l self stream s1 r s2 dgst :
  facades s !! l = Some self →
  get l s = Returns (inl stream) s1 →
  imageStreamHasExternalReferences stream = true →
  layers l s1 = Returns r s2 →
  match r with
  | inr lErr =>
      ∃ e, RemoteRepositoriesForBlob l dgst s = Returns ([], [], Some e) s2
           ∧ rerrors.Err e = Some (rerrors.as_error lErr)
  | inl index =>
      ∃ images,
        NoDup images
        ∧ (∀ image, image ∈ images ↔
             ∃ info, Images index !! image = Some info
                     ∧ (Config info = Some dgst ∨ dgst ∈ Layers info))
        ∧ RemoteRepositoriesForBlob l dgst s =
            Returns
              (match images with
               | [] => ([], [], None)
               | _ :: _ =>
                   ((remoteRepositoriesForImages stream images).1,
                    (remoteRepositoriesForImages stream images).2, None)
               end) s2
  end.
Proof.
  intros Hl Hget Hext Hlayers.
  unfold RemoteRepositoriesForBlob.
  rewrite (bind_Returns _ _ _ _ _ (deref_Some _ _ _ Hl)).
  rewrite (bind_Returns _ _ _ _ _ Hget). rewrite Hext. cbn [negb].
  rewrite (bind_Returns _ _ _ _ _ Hlayers).
  destruct r as [index|lErr]; [|by eexists].
  set (images := (filter (λ kv : string * ImageBlobReferences,
                            imageBlobReferencesHasBlob kv.2 dgst)
                         (map_to_list (Images index))).*1).
  exists images. split_and!.
  - unfold images.
    assert ((filter (λ kv : string * ImageBlobReferences,
                       imageBlobReferencesHasBlob kv.2 dgst)
                    (map_to_list (Images index))).*1
            `sublist_of` (map_to_list (Images index)).*1) as Hsub
      by apply fmap_sublist, sublist_filter.
    exact (sublist_NoDup _ _ (NoDup_fst_map_to_list _) Hsub).
  - intros image. unfold images. rewrite list_elem_of_fmap. split.
    + intros ([image' info] & -> & Hin). apply list_elem_of_filter in Hin as [Hblob Hin].
      apply elem_of_map_to_list in Hin. exists info. split; [done|].
      apply imageBlobReferencesHasBlob_true. by apply Is_true_true.
    + intros (info & Hin & Hblob). exists (image, info). split; [done|].
      apply list_elem_of_filter. split; [|by apply elem_of_map_to_list].
      apply Is_true_true. by apply imageBlobReferencesHasBlob_true.
  - destruct images as [|image images']; [done|]. simpl.
    by destruct (remoteRepositoriesForImages stream (image :: images')).
Qed.

(** X9.  On a resolved stream [RemoteRepositoriesForManifest] returns what
    the resolver answers for the one digest, in the state the stream getter
    left: it asks the resolver also for a stream without external
    references, where the lookup of a blob returns empty results, and it
    never asks for the blob index. *)
Theorem RemoteRepositoriesForManifest_resolves s l self stream s1 dgst :
  facades s !! l = Some self →
  get l s = Returns (inl stream) s1 →
  RemoteRepositoriesForManifest l dgst s =
    Returns ((remoteRepositoriesForImages stream [dgst]).1,
             (remoteRepositoriesForImages stream [dgst]).2, None) s1
  ∧ (imageStreamHasExternalReferences stream = false →
     RemoteRepositoriesForBlob l dgst s = Returns ([], [], None) s1)
  ∧ (∀ c ns nm, GetImageStreamLayersRequest c ns nm ∈ trace s1 →
                GetImageStreamLayersRequest c ns nm ∈ trace s).
Proof.
  intros Hl Hget. split_and!.
  - unfold RemoteRepositoriesForManifest.
    rewrite (bind_Returns _ _ _ _ _ (deref_Some _ _ _ Hl)).
    rewrite (bind_Returns _ _ _ _ _ Hget).
    by destruct (remoteRepositoriesForImages stream [dgst]).
  - intros Hlocal. unfold RemoteRepositoriesForBlob.
    rewrite (bind_Returns _ _ _ _ _ (deref_Some _ _ _ Hl)).
    rewrite (bind_Returns _ _ _ _ _ Hget). by rewrite Hlocal.
  - intros c ns nm Hin.
    destruct (get_Returns s l self Hl) as (r & s' & Hget' & _ & _ & Htrace).
    rewrite Hget in Hget'. injection Hget' as <- <-.
    destruct Htrace as [[Ht _]|(c' & ns' & nm' & Ht)]; rewrite Ht in Hin; [done|].
    apply elem_of_app in Hin as [Hin|Hin]; [done|].
    by apply list_elem_of_singleton in Hin.
Qed.

(** X10.  A stream for which no local registry hostname is known, because
    the reference of its repository yields no registry and the public one is
    absent or yields none, has external references as soon as the history
    of one of its tags holds an item, and none when it holds no item. *)
Theorem imageStreamHasExternalReferences_no_local_names (stream : ImageStream) :
  Registry (ParseDockerImageReference (DockerImageRepository (Status stream))).1 = "" →
  PublicDockerImageRepository (Status stream) = ""
  ∨ Registry (ParseDockerImageReference
                (PublicDockerImageRepository (Status stream))).1 = "" →
  (imageStreamHasExternalReferences stream = true ↔
   ∃ history, history ∈ Status_Tags (Status stream) ∧ Items history ≠ []).
Proof.
  intros Hprimary Hpublic.
  assert (localPrefixes stream = []) as Hnone.
  { unfold localPrefixes.
    assert (getLocalRegistryNames stream = []) as ->; [|done].
    unfold getLocalRegistryNames.
    destruct (ParseDockerImageReference (DockerImageRepository (Status stream)))
      as [local err1].
    destruct (ParseDockerImageReference (PublicDockerImageRepository (Status stream)))
      as [public err2].
    simpl in *. rewrite !bool_decide_length_zero.
    rewrite (bool_decide_eq_true_2 _ Hprimary). simpl.
    destruct Hpublic as [Hpublic|Hpublic].
    - by rewrite (bool_decide_eq_true_2 _ Hpublic).
    - rewrite (bool_decide_eq_true_2 _ Hpublic). simpl. by case_bool_decide. }
  unfold imageStreamHasExternalReferences. rewrite Hnone, existsb_true. simpl.
  split.
  - intros (history & Hin & Hitems). exists history. split; [done|].
    apply existsb_true in Hitems as (item & Hitem & _). intros Hnil.
    rewrite Hnil in Hitem. by apply elem_of_nil in Hitem.
  - intros (history & Hin & Hitems). exists history. split; [done|].
    destruct (Items history) as [|item items]; [done|]. reflexivity.
Qed.


(** ** Tags recorded twice, tags given *)

(** The body of the loop of [Tags] leaves a tag alone unless the history
    bears it and has a parsed head digest. *)
Lemma Tags_loop_skips (histories : list NamedTagEventList) (m : gmap string Digest)
    (tag : string) :
  (∀ history, history ∈ histories → Tag history = tag → headDigest history = None) →
  foldl (λ (m : gmap string Digest) history,
           match Items history with
           | [] => m
           | item0 :: _ =>
               match digest_Parse (TagEvent_Image item0) with
               | None => m
               | Some dgst => <[Tag history := dgst]> m
               end
           end) m histories !! tag = m !! tag.
Proof.
  revert m. induction histories as [|h hs IH]; intros m Hskip; simpl; [done|].
  rewrite IH by (intros history Hin; apply Hskip; by apply elem_of_cons; right).
  rewrite tagsStep_headDigest.
  destruct (headDigest h) as [d|] eqn:Hh; [|done].
  destruct (decide (Tag h = tag)) as [Ht|Ht]; [|by rewrite lookup_insert_ne].
  rewrite (Hskip h) in Hh; [done| |done]. by apply elem_of_cons; left.
Qed.

(** X11.  When the status records a tag more than once, [Tags] maps the tag
    to the parsed head digest of the last of its histories that has one:
    histories after it that are empty or start with an unparsable digest do
    not displace it. *)
Theorem Tags_last_history_wins s l self stream s1 before history after item0 items dgst :
  facades s !! l = Some self →
  get l s = Returns (inl stream) s1 →
  Status_Tags (Status stream) = (before ++ history :: after)%list →
  Items history = item0 :: items →
  digest_Parse (TagEvent_Image item0) = Some dgst →
  (∀ later, later ∈ after → Tag later = Tag history →
     Items later = []
     ∨ ∃ item0' items', Items later = item0' :: items'
                        ∧ digest_Parse (TagEvent_Image item0') = None) →
  ∃ m : gmap string Digest,
    Tags l s = Returns (inl m) s1 ∧ m !! Tag history = Some dgst.
Proof.
  intros Hl Hget Hsplit Hitems Hparse Hafter.
  eexists. split; [by eapply Tags_of_get|].
  rewrite Hsplit, foldl_app. simpl. rewrite Tags_loop_skips.
  - rewrite Hitems, Hparse. apply lookup_insert_eq.
  - intros later Hin Htag. unfold headDigest.
    destruct (Hafter later Hin Htag) as [->|(item0' & items' & -> & Hnone)]; done.
Qed.

(** X12.  With a tag given, the digest plays no part in [TagIsInsecure]: the
    run is the same for any two digests, in its result and in its state. *)
Theorem TagIsInsecure_tag_given s l tag dgst dgst' :
  tag ≠ "" →
  TagIsInsecure l tag dgst s = TagIsInsecure l tag dgst' s.
Proof.
  intros Htag. unfold TagIsInsecure, bind.
  destruct (deref l s) as [self s0|]; [|done].
  destruct (get l s0) as [[stream|rErr] s1|]; [|done..].
  rewrite !bool_decide_length_zero, !(bool_decide_eq_false_2 (tag = "")) by done.
  done.
Qed.

End Coverage.

Section CoverageLimitRanges.
Context {Σ : Type} {L : LimitRangeLister Σ} {C : Type} {S : ProjectObjectListStore C}.

Implicit Types (s : state Σ) (l : loc) (self : imageStream) (c : C).

(** ** GetLimitRangeList *)

(** X13.  When the cache says that it holds an object for the namespace,
    [GetLimitRangeList] does not consult the service: it returns the cached
    list, be it a nil pointer, with no error and leaves the state as it was,
    the error of the cache being ignored; it panics when the cached object
    is nil or is no list of limit ranges. *)
Theorem GetLimitRangeList_cached s l self c obj err c' :
  facades s !! l = Some self →
  Store_Get (namespace self) c = (obj, true, err, c') →
  GetLimitRangeList l (Some c) s =
    match obj with
    | Some (LimitRangeListObject lrs) => Returns (lrs, None, Some c') s
    | Some (OtherObject _) | None => Panics s
    end.
Proof.
  intros Hl Hget. unfold GetLimitRangeList.
  rewrite (bind_Returns _ _ _ _ _ (deref_Some _ _ _ Hl)). cbv zeta. rewrite Hget.
  by destruct obj as [[lrs|kind]|].
Qed.

(** The run of [GetLimitRangeList] from the list request on. *)
Lemma bind_call {A B} (f : Σ → A * Σ) (k : A → M Σ B) s a σ :
  f (service s) = (a, σ) →
  bind (call f) k s =
    k a {| service := σ; trace := trace s; facades := facades s; images := images s |}.
Proof. unfold bind, call. by intros ->. Qed.

(** X14.  When the cache holds nothing for the namespace,
    [GetLimitRangeList] lists the limit ranges of the facade's namespace
    with the registry's client.  A failure is returned as Unknown, wrapped,
    and nothing is added to the cache; a list is added to the cache under
    the namespace and returned with no error, also when the cache refuses
    it. *)
Theorem GetLimitRangeList_listed s l self c obj gerr c0 r σ aerr c1 :
  facades s !! l = Some self →
  Store_Get (namespace self) c = (obj, false, gerr, c0) →
  LimitRanges_List (registryOSClient self) (namespace self) (service s) = (r, σ) →
  (∀ lrs, r = inl lrs →
     Store_Add (namespace self) (LimitRangeListObject (Some lrs)) c0 = (aerr, c1)) →
  let s' := {| service := σ; trace := trace s;
               facades := facades s; images := images s |} in
  match r with
  | inr e =>
      ∃ rerr, GetLimitRangeList l (Some c) s = Returns (None, Some rerr, Some c0) s'
              ∧ rerrors.Code rerr = ErrImageStreamUnknownErrorCode
              ∧ rerrors.Err rerr = Some e
  | inl lrs => GetLimitRangeList l (Some c) s = Returns (Some lrs, None, Some c1) s'
  end.
Proof.
  intros Hl Hget Hlist Hadd s'. unfold GetLimitRangeList.
  rewrite (bind_Returns _ _ _ _ _ (deref_Some _ _ _ Hl)). cbv zeta. rewrite Hget.
  rewrite (bind_call _ _ _ _ _ Hlist). fold s'.
  destruct r as [lrs|e]; [|by eexists].
  by rewrite (Hadd lrs eq_refl).
Qed.

(** X15.  Without a cache [GetLimitRangeList] lists the limit ranges at
    every call: it returns the list, or the failure as Unknown, and no
    cache. *)
Theorem GetLimitRangeList_uncached s l self r σ :
  facades s !! l = Some self →
  LimitRanges_List (registryOSClient self) (namespace self) (service s) = (r, σ) →
  let s' := {| service := σ; trace := trace s;
               facades := facades s; images := images s |} in
  match r with
  | inr e =>
      ∃ rerr, GetLimitRangeList l None s = Returns (None, Some rerr, None) s'
              ∧ rerrors.Code rerr = ErrImageStreamUnknownErrorCode
              ∧ rerrors.Err rerr = Some e
  | inl lrs => GetLimitRangeList l None s = Returns (Some lrs, None, None) s'
  end.
Proof.
  intros Hl Hlist s'. unfold GetLimitRangeList.
  rewrite (bind_Returns _ _ _ _ _ (deref_Some _ _ _ Hl)). cbv zeta.
  rewrite (bind_call _ _ _ _ _ Hlist). fold s'.
  destruct r as [lrs|e]; [done|by eexists].
Qed.

(** X16.  With a cache that gives back what it has accepted, a list of limit
    ranges is fetched once per namespace: after a call that has listed and
    cached it, a call on any facade of the same namespace returns the same
    list from the cache and leaves the service alone. *)
Theorem GetLimitRangeList_fetched_once s l self l' other c obj gerr c0 lrs σ c1 :
  (∀ ns o c c', Store_Add ns o c = (None, c') →
     ∃ err c'', Store_Get ns c' = (Some o, true, err, c'')) →
  facades s !! l = Some self →
  facades s !! l' = Some other →
  namespace other = namespace self →
  Store_Get (namespace self) c = (obj, false, gerr, c0) →
  LimitRanges_List (registryOSClient self) (namespace self) (service s) = (inl lrs, σ) →
  Store_Add (namespace self) (LimitRangeListObject (Some lrs)) c0 = (None, c1) →
  let s' := {| service := σ; trace := trace s;
               facades := facades s; images := images s |} in
  GetLimitRangeList l (Some c) s = Returns (Some lrs, None, Some c1) s'
  ∧ ∃ c2, GetLimitRangeList l' (Some c1) s' = Returns (Some lrs, None, Some c2) s'.
Proof.
  intros Hstore Hl Hl' Hns Hget Hlist Hadd s'. split.
  - unfold GetLimitRangeList.
    rewrite (bind_Returns _ _ _ _ _ (deref_Some _ _ _ Hl)). cbv zeta. rewrite Hget.
    rewrite (bind_call _ _ _ _ _ Hlist). by rewrite Hadd.
  - destruct (Hstore _ _ _ _ Hadd) as (err & c2 & Hget'). exists c2.
    unfold GetLimitRangeList.
    rewrite (bind_Returns _ _ _ other s') by (by apply deref_Some).
    cbv zeta. by rewrite Hns, Hget'.
Qed.

End CoverageLimitRanges.

(** * Further examples *)

(** The stream is missing and is created: four events, in their order. *)
Lemma CreateImageStreamMapping_requests_example :
  let stream := ImageStream_set_Name ImageStream_zero "app" in
  let s := example_state (example_service [Some example_stream_missing; None] [None]
                            (inl example_local_stream)) in
  let mappingRequest := CreateImageStreamMappingRequest registryClient "ns" example_mapping in
  let streamRequest := CreateImageStreamRequest pusher "ns" stream in
  facades s !! 0%nat = Some example_facade
  ∧ images s !! 0%nat = Some example_image
  ∧ ∃ sent,
      trace (final (CreateImageStreamMapping 0%nat pusher "latest" 0%nat s))
        = (trace s ++ sent)%list
      ∧ (sent = [mappingRequest]
         ∨ sent = [mappingRequest; streamRequest]
         ∨ sent = [mappingRequest; streamRequest; CacheImageStream 0%nat stream;
                   mappingRequest]).
Proof.
  intros stream s mappingRequest streamRequest.
  split; [reflexivity|]. split; [reflexivity|].
  exact (CreateImageStreamMapping_requests s 0%nat example_facade pusher "latest" 0%nat
           example_image eq_refl eq_refl).
Defined.

(** The same run: the image record is as it was and the one facade is still
    the facade on [ns/app]. *)
Lemma CreateImageStreamMapping_frame_example :
  let s := example_state (example_service [Some example_stream_missing; None] [None]
                            (inl example_local_stream)) in
  let sf := final (CreateImageStreamMapping 0%nat pusher "latest" 0%nat s) in
  facades s !! 0%nat = Some example_facade
  ∧ images s !! 0%nat = Some example_image
  ∧ images sf = [example_image]
  ∧ length (facades sf) = 1%nat
  ∧ ∃ self', facades sf !! 0%nat = Some self'
             ∧ namespace self' = "ns" ∧ name self' = "app"
             ∧ imageClient self' = newCachedImageGetter registryClient.
Proof.
  intros s sf. split; [reflexivity|]. split; [reflexivity|].
  destruct (CreateImageStreamMapping_frame s 0%nat example_facade pusher "latest" 0%nat
              example_image eq_refl eq_refl)
    as (Himages & Hlength & _ & self' & Hl & Hns & Hname & _ & Hclient & _).
  split; [exact Himages|]. split; [exact Hlength|].
  exists self'. split; [exact Hl|]. split; [exact Hns|]. split; [exact Hname|exact Hclient].
Defined.

(** The namespace is reported missing: the error is Forbidden and wraps the
    answer of the service. *)
Lemma CreateImageStreamMapping_codes_example :
  let s := example_state (example_service [Some example_namespace_missing] []
                            (inl example_local_stream)) in
  facades s !! 0%nat = Some example_facade
  ∧ images s !! 0%nat = Some example_image
  ∧ ∃ r sf,
      CreateImageStreamMapping 0%nat pusher "latest" 0%nat s = Returns (Some r) sf
      ∧ (rerrors.Code r = ErrImageStreamForbiddenCode
         ∨ rerrors.Code r = ErrImageStreamUnknownErrorCode)
      ∧ rerrors.Code r ≠ ErrImageStreamNotFoundCode
      ∧ rerrors.Code r ≠ ErrImageStreamImageNotFoundCode
      ∧ is_Some (rerrors.Err r).
Proof.
  intros s. split; [reflexivity|]. split; [reflexivity|].
  destruct (CreateImageStreamMapping 0%nat pusher "latest" 0%nat s) as [[r|] sf|sf] eqn:Hrun;
    pose proof Hrun as Hc; vm_compute in Hc; try discriminate Hc.
  exists r, sf. split; [reflexivity|].
  exact (CreateImageStreamMapping_codes s 0%nat example_facade pusher "latest" 0%nat
           example_image r sf eq_refl eq_refl Hrun).
Defined.

(** The stream is provisioned while the service holds a stream with a tag:
    the facade sees no tag. *)
Lemma CreateImageStreamMapping_then_Tags_example :
  let stream := ImageStream_set_Name ImageStream_zero "app" in
  let s := example_state (example_service [Some example_stream_missing; None] [None]
                            (inl example_local_stream)) in
  let sf := {| service := example_service [] [] (inl example_local_stream);
               trace := [CreateImageStreamMappingRequest registryClient "ns" example_mapping;
                         CreateImageStreamRequest pusher "ns" stream;
                         CacheImageStream 0%nat stream;
                         CreateImageStreamMappingRequest registryClient "ns" example_mapping];
               facades := [example_fetched_facade stream];
               images := [example_image] |} in
  facades s !! 0%nat = Some example_facade
  ∧ images s !! 0%nat = Some example_image
  ∧ CreateImageStreamMapping 0%nat pusher "latest" 0%nat s = Returns None sf
  ∧ Exists 0%nat sf = Returns (true, None) sf
  ∧ Tags 0%nat sf = Returns (inl ∅) sf.
Proof.
  intros stream s sf.
  assert (CreateImageStreamMapping 0%nat pusher "latest" 0%nat s = Returns None sf) as Hrun
    by reflexivity.
  split; [reflexivity|]. split; [reflexivity|]. split; [exact Hrun|].
  exact (CreateImageStreamMapping_then_Tags s 0%nat example_facade pusher "latest" 0%nat
           example_image None sf eq_refl eq_refl Hrun eq_refl).
Defined.

(** No TagEvent records [sha256:zz]: no image is asked for. *)
Lemma GetImageOfImageStream_unresolved_example :
  let σ := example_service [] [] (inl example_local_stream) in
  let s := example_state σ in
  let s1 := example_fetched σ example_local_stream in
  facades s !! 0%nat = Some example_facade
  ∧ ∃ e, ResolveImageID 0%nat "sha256:zz" s = Returns (inr e) s1
         ∧ GetImageOfImageStream 0%nat "sha256:zz" s = Returns (inr e) s1
         ∧ images s1 = images s
         ∧ ∀ c d, GetImageRequest c d ∈ trace s1 → GetImageRequest c d ∈ trace s.
Proof.
  intros σ s s1. split; [reflexivity|].
  destruct (ResolveImageID 0%nat "sha256:zz" s) as [[ev|e] s1'|s1'] eqn:Hres;
    pose proof Hres as Hc; vm_compute in Hc; try discriminate Hc.
  assert (s1' = s1) as Hs1 by (injection Hc as _ Hs; exact (eq_sym Hs)).
  rewrite Hs1 in Hres |- *.
  destruct (GetImageOfImageStream_unresolved s 0%nat example_facade "sha256:zz" e s1
              eq_refl Hres) as (Hrun & Himages & Htrace & _).
  exists e. split; [reflexivity|]. split; [exact Hrun|]. split; [exact Himages|exact Htrace].
Defined.

(** The stream records [sha256:cc], which the service has no image for. *)
Lemma GetImageOfImageStream_fetch_fails_example :
  let ev := example_event 10 "registry.local/ns/app@sha256:cc" "sha256:cc" in
  let stream := example_stream ∅ [] [{| Tag := "latest"; Items := [ev] |}] in
  let σ := example_service [] [] (inl stream) in
  let s := example_state σ in
  let s1 := example_fetched σ stream in
  let err := NewNotFound "images" "sha256:cc" in
  facades s !! 0%nat = Some example_facade
  ∧ get 0%nat s = Returns (inl stream) s1
  ∧ originutil_ResolveImageID stream "sha256:cc" = inl ev
  ∧ IsNotFound err = true
  ∧ ∃ s2 e, imageClient_Get 0%nat "sha256:cc" s1 = Returns (inr err) s2
            ∧ GetImageOfImageStream 0%nat "sha256:cc" s = Returns (inr e) s2
            ∧ rerrors.Err e = Some err
            ∧ rerrors.Code e = ErrImageStreamImageNotFoundCode.
Proof.
  intros ev stream σ s s1 err.
  assert (get 0%nat s = Returns (inl stream) s1) as Hget by reflexivity.
  assert (originutil_ResolveImageID stream "sha256:cc" = inl ev) as Hres by reflexivity.
  assert (IsNotFound err = true) as Hnf by reflexivity.
  split; [reflexivity|]. split; [exact Hget|]. split; [exact Hres|]. split; [exact Hnf|].
  destruct (imageClient_Get 0%nat "sha256:cc" s1) as [[p|err'] s2|s2] eqn:Hfetch;
    pose proof Hfetch as Hc; vm_compute in Hc; try discriminate Hc.
  assert (err' = err) as Herr by (injection Hc as He _; exact (eq_sym He)).
  rewrite Herr in Hfetch |- *.
  destruct (GetImageOfImageStream_fetch_fails s 0%nat example_facade "sha256:cc" stream s1
              ev err s2 eq_refl Hget Hres Hfetch) as (e & Hrun & Hwraps & Hcode & _).
  exists s2, e. split; [reflexivity|]. split; [exact Hrun|]. split; [exact Hwraps|].
  exact (Hcode Hnf).
Defined.

(** The service forbids the stream: [Tags] and [RemoteRepositoriesForManifest]
    fail with Forbidden. *)
Lemma getter_failure_translated_example :
  let s := example_state
             (example_service [] [] (inr (NewStatusError "Forbidden" 403 None))) in
  facades s !! 0%nat = Some example_facade
  ∧ ∃ rErr s1,
      get 0%nat s = Returns (inr rErr) s1
      ∧ rerrors.Code rErr = ErrImageStreamGetterForbiddenCode
      ∧ (∃ e, Tags 0%nat s = Returns (inr e) s1
              ∧ rerrors.Code e = ErrImageStreamForbiddenCode)
      ∧ (∃ e, RemoteRepositoriesForManifest 0%nat "sha256:aa" s
              = Returns ([], [], Some e) s1
              ∧ rerrors.Code e = ErrImageStreamForbiddenCode).
Proof.
  intros s. split; [reflexivity|].
  destruct (get 0%nat s) as [[stream|rErr] s1|s1] eqn:Hget;
    pose proof Hget as Hc; vm_compute in Hc; try discriminate Hc.
  assert (rerrors.Code rErr = ErrImageStreamGetterForbiddenCode) as Hcode
    by (injection Hc as He _; rewrite <- He; reflexivity).
  assert (rerrors.Code rErr ≠ ErrImageStreamGetterNotFoundCode) as Hnf
    by (rewrite Hcode; discriminate).
  destruct (getter_failure_translated s 0%nat example_facade rErr s1 eq_refl Hget)
    as (code & _ & Hforbidden & _ & _ & _ & _ & Htags & _ & Hmanifest).
  rewrite (Hforbidden Hnf Hcode) in Htags, Hmanifest.
  exists rErr, s1. split; [reflexivity|]. split; [exact Hcode|]. split.
  - destruct Htags as (e & Hrun & He & _). exists e. split; [exact Hrun|exact He].
  - destruct (Hmanifest "sha256:aa") as (e & Hrun & He & _).
    exists e. split; [exact Hrun|exact He].
Defined.

(** A stream with an image of another registry, and a blob index of two
    images, one of which has the blob as a layer. *)
Lemma RemoteRepositoriesForBlob_images_example :
  let stream :=
    example_stream ∅ []
      [{| Tag := "latest";
          Items := [example_event 10 "quay.example.org/team/app@sha256:aa" "sha256:aa"] |}]
  in
  let index :=
    {| Images := {[ "sha256:aa" := {| Layers := ["sha256:bb"]; Config := Some "sha256:cf" |};
                    "sha256:dd" := {| Layers := ["sha256:ee"]; Config := None |} ]} |} in
  let σ := {| mappingReplies := []; streamReplies := [];
              streamRecord := inl stream; layersRecord := inl index;
              imageRecords := ∅ |} in
  let s := example_state σ in
  let s1 := example_fetched σ stream in
  facades s !! 0%nat = Some example_facade
  ∧ get 0%nat s = Returns (inl stream) s1
  ∧ imageStreamHasExternalReferences stream = true
  ∧ ∃ s2 images,
      layers 0%nat s1 = Returns (inl index) s2
      ∧ NoDup images
      ∧ "sha256:aa" ∈ images
      ∧ ("sha256:dd" ∉ images)
      ∧ RemoteRepositoriesForBlob 0%nat "sha256:bb" s =
          Returns
            (match images with
             | [] => ([], [], None)
             | _ :: _ =>
                 ((remoteRepositoriesForImages stream images).1,
                  (remoteRepositoriesForImages stream images).2, None)
             end) s2.
Proof.
  intros stream index σ s s1.
  assert (get 0%nat s = Returns (inl stream) s1) as Hget by reflexivity.
  assert (imageStreamHasExternalReferences stream = true) as Hext by reflexivity.
  split; [reflexivity|]. split; [exact Hget|]. split; [exact Hext|].
  destruct (layers 0%nat s1) as [[index'|lErr] s2|s2] eqn:Hlayers;
    pose proof Hlayers as Hc; vm_compute in Hc; try discriminate Hc.
  assert (index' = index) as Hindex by (injection Hc as Hi _; exact (eq_sym Hi)).
  rewrite Hindex in Hlayers |- *.
  destruct (RemoteRepositoriesForBlob_images s 0%nat example_facade stream s1 (inl index) s2
              "sha256:bb" eq_refl Hget Hext Hlayers) as (images & Hnodup & Himages & Hrun).
  exists s2, images. split; [reflexivity|]. split; [exact Hnodup|]. split_and!.
  - apply Himages. eexists. split; [reflexivity|]. right. apply list_elem_of_here.
  - intros Hin. apply Himages in Hin as (info & Hinfo & Hblob).
    vm_compute in Hinfo. injection Hinfo as <-. destruct Hblob as [Hblob|Hblob].
    + discriminate Hblob.
    + apply list_elem_of_singleton in Hblob. discriminate Hblob.
  - exact Hrun.
Defined.

(** The local stream has no external references: the resolver is asked for
    a manifest, not for a blob. *)
Lemma RemoteRepositoriesForManifest_resolves_example :
  let σ := example_service [] [] (inl example_local_stream) in
  let s := example_state σ in
  let s1 := example_fetched σ example_local_stream in
  facades s !! 0%nat = Some example_facade
  ∧ get 0%nat s = Returns (inl example_local_stream) s1
  ∧ imageStreamHasExternalReferences example_local_stream = false
  ∧ RemoteRepositoriesForManifest 0%nat "sha256:aa" s =
      Returns ((remoteRepositoriesForImages example_local_stream ["sha256:aa"]).1,
               (remoteRepositoriesForImages example_local_stream ["sha256:aa"]).2, None) s1
  ∧ RemoteRepositoriesForBlob 0%nat "sha256:aa" s = Returns ([], [], None) s1.
Proof.
  intros σ s s1.
  assert (get 0%nat s = Returns (inl example_local_stream) s1) as Hget by reflexivity.
  assert (imageStreamHasExternalReferences example_local_stream = false) as Hlocal
    by reflexivity.
  split; [reflexivity|]. split; [exact Hget|]. split; [exact Hlocal|].
  destruct (RemoteRepositoriesForManifest_resolves s 0%nat example_facade
              example_local_stream s1 "sha256:aa" eq_refl Hget) as (Hmanifest & Hblob & _).
  split; [exact Hmanifest|exact (Hblob Hlocal)].
Defined.

(** A stream that has no repository reference yet and one image. *)
Lemma imageStreamHasExternalReferences_no_local_names_example :
  let stream :=
    {| Namespace := "ns"; Name := "app"; Annotations := ∅;
       Spec := {| Spec_Tags := [] |};
       Status := {| DockerImageRepository := "";
                    PublicDockerImageRepository := "";
                    Status_Tags := [{| Tag := "latest"; Items := [example_event_aa] |}] |} |}
  in
  Registry (ParseDockerImageReference (DockerImageRepository (Status stream))).1 = ""
  ∧ PublicDockerImageRepository (Status stream) = ""
  ∧ imageStreamHasExternalReferences stream = true.
Proof.
  intros stream.
  assert (Registry (ParseDockerImageReference (DockerImageRepository (Status stream))).1
          = "") as Hprimary by reflexivity.
  split; [exact Hprimary|]. split; [reflexivity|].
  apply (imageStreamHasExternalReferences_no_local_names stream Hprimary (or_introl eq_refl)).
  eexists. split; [apply list_elem_of_here|]. discriminate.
Defined.

(** [latest] is recorded four times: the second history wins over the first,
    and the empty and the corrupt one after it change nothing. *)
Lemma Tags_last_history_wins_example :
  let first := {| Tag := "latest"; Items := [example_event_aa] |} in
  let second :=
    {| Tag := "latest";
       Items := [example_event 12 "registry.local/ns/app@sha256:bb" "sha256:bb"] |} in
  let empty := {| Tag := "latest"; Items := [] |} in
  let corrupt := {| Tag := "latest"; Items := [example_event 13 "elsewhere/x/y@zz" "zz"] |} in
  let stream := example_stream ∅ [] [first; second; empty; corrupt] in
  let σ := example_service [] [] (inl stream) in
  let s := example_state σ in
  let s1 := example_fetched σ stream in
  facades s !! 0%nat = Some example_facade
  ∧ get 0%nat s = Returns (inl stream) s1
  ∧ ∃ m : gmap string Digest,
      Tags 0%nat s = Returns (inl m) s1 ∧ m !! "latest" = Some "sha256:bb".
Proof.
  intros first second empty corrupt stream σ s s1.
  assert (get 0%nat s = Returns (inl stream) s1) as Hget by reflexivity.
  split; [reflexivity|]. split; [exact Hget|].
  apply (Tags_last_history_wins s 0%nat example_facade stream s1 [first] second
           [empty; corrupt]
           (example_event 12 "registry.local/ns/app@sha256:bb" "sha256:bb") [] "sha256:bb"
           eq_refl Hget eq_refl eq_refl eq_refl).
  intros later Hin _.
  apply elem_of_cons in Hin as [->|Hin]; [by left|].
  apply list_elem_of_singleton in Hin as ->. right. by eexists _, _.
Defined.

(** Asked for [latest], the facade answers alike for two digests. *)
Lemma TagIsInsecure_tag_given_example :
  let s := example_state (example_service [] [] (inl example_local_stream)) in
  "latest" ≠ ""
  ∧ TagIsInsecure 0%nat "latest" "sha256:aa" s = TagIsInsecure 0%nat "latest" "sha256:zz" s.
Proof.
  intros s.
  assert ("latest" ≠ "") as Htag by discriminate.
  split; [exact Htag|].
  exact (TagIsInsecure_tag_given s 0%nat "latest" "sha256:aa" "sha256:zz" Htag).
Defined.

(** The cache holds the limit ranges of [ns]: the service serves nothing. *)
Lemma GetLimitRangeList_cached_example :
  let lrs := {| corev1.LimitRange_Items := [{| corev1.LimitRange_Name := "cached" |}] |} in
  let c : gmap string Object := {[ "ns" := LimitRangeListObject (Some lrs) ]} in
  let s := counting_state 0 in
  facades s !! 0%nat = Some example_facade
  ∧ Store_Get "ns" c = (Some (LimitRangeListObject (Some lrs)), true, None, c)
  ∧ GetLimitRangeList 0%nat (Some c) s = Returns (Some lrs, None, Some c) s.
Proof.
  intros lrs c s.
  assert (Store_Get "ns" c = (Some (LimitRangeListObject (Some lrs)), true, None, c))
    as Hget by reflexivity.
  split; [reflexivity|]. split; [exact Hget|].
  exact (GetLimitRangeList_cached s 0%nat example_facade c _ None c eq_refl Hget).
Defined.

(** The cache is empty: the list is served and cached. *)
Lemma GetLimitRangeList_listed_example :
  let lrs := {| corev1.LimitRange_Items := [{| corev1.LimitRange_Name := "ns-limits" |}] |} in
  let c : gmap string Object := ∅ in
  let c1 : gmap string Object := {[ "ns" := LimitRangeListObject (Some lrs) ]} in
  let s := counting_state 0 in
  facades s !! 0%nat = Some example_facade
  ∧ Store_Get "ns" c = (None, false, None, c)
  ∧ LimitRanges_List registryClient "ns" (service s) = (inl lrs, 1%nat)
  ∧ Store_Add "ns" (LimitRangeListObject (Some lrs)) c = (None, c1)
  ∧ GetLimitRangeList 0%nat (Some c) s = Returns (Some lrs, None, Some c1) (counting_state 1).
Proof.
  intros lrs c c1 s.
  assert (Store_Get "ns" c = (None, false, None, c)) as Hget by reflexivity.
  assert (LimitRanges_List registryClient "ns" (service s) = (inl lrs, 1%nat)) as Hlist
    by reflexivity.
  assert (Store_Add "ns" (LimitRangeListObject (Some lrs)) c = (None, c1)) as Hadd
    by reflexivity.
  split; [reflexivity|]. split; [exact Hget|]. split; [exact Hlist|]. split; [exact Hadd|].
  apply (GetLimitRangeList_listed s 0%nat example_facade c None None c (inl lrs) 1%nat
           None c1 eq_refl Hget Hlist).
  intros lrs' Heq. injection Heq as <-. exact Hadd.
Defined.

(** No cache: the list is served. *)
Lemma GetLimitRangeList_uncached_example :
  let lrs := {| corev1.LimitRange_Items := [{| corev1.LimitRange_Name := "ns-limits" |}] |} in
  let s := counting_state 0 in
  facades s !! 0%nat = Some example_facade
  ∧ LimitRanges_List registryClient "ns" (service s) = (inl lrs, 1%nat)
  ∧ GetLimitRangeList (C := gmap string Object) 0%nat None s
    = Returns (Some lrs, None, None) (counting_state 1).
Proof.
  intros lrs s.
  assert (LimitRanges_List registryClient "ns" (service s) = (inl lrs, 1%nat)) as Hlist
    by reflexivity.
  split; [reflexivity|]. split; [exact Hlist|].
  exact (GetLimitRangeList_uncached (C := gmap string Object) s 0%nat example_facade
           (inl lrs) 1%nat eq_refl Hlist).
Defined.

(** Two facades of [ns] and a cache that keeps what it is given: the second
    call is answered from the cache. *)
Lemma GetLimitRangeList_fetched_once_example :
  let lrs := {| corev1.LimitRange_Items := [{| corev1.LimitRange_Name := "ns-limits" |}] |} in
  let other :=
    {| namespace := "ns"; name := "other";
       registryOSClient := registryClient;
       imageClient := newCachedImageGetter registryClient;
       imageStreamGetter := imageStreamGetter example_facade |} in
  let c : gmap string Object := ∅ in
  let c1 : gmap string Object := {[ "ns" := LimitRangeListObject (Some lrs) ]} in
  let s := {| service := 0%nat; trace := []; facades := [example_facade; other];
              images := [] |} in
  let s' := {| service := 1%nat; trace := []; facades := [example_facade; other];
               images := [] |} in
  facades s !! 0%nat = Some example_facade
  ∧ facades s !! 1%nat = Some other
  ∧ GetLimitRangeList 0%nat (Some c) s = Returns (Some lrs, None, Some c1) s'
  ∧ ∃ c2, GetLimitRangeList 1%nat (Some c1) s' = Returns (Some lrs, None, Some c2) s'.
Proof.
  intros lrs other c c1 s s'.
  assert (∀ ns o (c c' : gmap string Object), Store_Add ns o c = (None, c') →
            ∃ err c'', Store_Get ns c' = (Some o, true, err, c'')) as Hstore.
  { intros ns o c0 c' Hadd. injection Hadd as <-. exists None. eexists.
    unfold Store_Get; simpl. by rewrite lookup_insert_eq. }
  assert (Store_Get "ns" c = (None, false, None, c)) as Hget by reflexivity.
  assert (LimitRanges_List registryClient "ns" (service s) = (inl lrs, 1%nat)) as Hlist
    by reflexivity.
  assert (Store_Add "ns" (LimitRangeListObject (Some lrs)) c = (None, c1)) as Hadd
    by reflexivity.
  split; [reflexivity|]. split; [reflexivity|].
  exact (GetLimitRangeList_fetched_once s 0%nat example_facade 1%nat other c None None c
           lrs 1%nat c1 Hstore eq_refl eq_refl eq_refl Hget Hlist Hadd).
Defined.
